(** * turtlebot_follower / random_walker.cpp

    A shallow embedding of the [TurtlebotFollower] nodelet
    (src/turtlebot_follower/src/random_walker.cpp) and the properties of
    its box filter, bumper tracking, recovery loop and mode service.

    - C++ [float] and [double] values are IEEE 754 binary32 / binary64
      numbers, represented by the Standard Library's [spec_float] and
      computed with its operations ([SFadd], [SFsub], [SFdiv], ...).
    - The nodelet registers every callback through [getNodeHandle] /
      [getPrivateNodeHandle], i.e. on the single-threaded callback queue:
      callbacks never overlap, so each callback is one atomic step on the
      object's fields, and a blocking loop inside [cloudcb] runs to its end
      before the next queued message is handled.
    - The commands published on [cmd_vel] are collected in a list, in
      publication order.  Debug markers ([publishMarker], [publishBbox])
      and [ROS_INFO] lines do not touch the fields and are left out, except
      for the log lines of [bumperEventCB]. *)

From Stdlib Require Import String ZArith QArith Qpower List Bool Lia Permutation.
From Stdlib Require Import Floats.SpecFloat.
Import ListNotations.

Local Open Scope Z_scope.

(** ** Floating-point numbers *)

Module FP.

(** A C++ [float] (binary32) and a C++ [double] (binary64).  Promoting a
    [float] to [double] does not change the number it denotes; all
    operations below act on the denoted number, so promotion is the
    identity on the representation. *)
Definition float := spec_float.
Definition double := spec_float.

Definition nan : spec_float := S754_nan.

(** [std::isnan]. *)
Definition isnan (a : spec_float) : bool :=
  match a with S754_nan => true | _ => false end.

Definition is_finite (a : spec_float) : bool :=
  match a with S754_zero _ | S754_finite _ _ _ => true | _ => false end.

(** The rational number denoted by a zero or finite value. *)
Definition value (a : spec_float) : Q :=
  match a with
  | S754_finite s m e =>
      let z := if s then Z.neg m else Z.pos m in
      match e with
      | Z0 => inject_Z z
      | Zpos p => inject_Z (z * Z.pow_pos 2 p)
      | Zneg p => Qmake z (Pos.iter xO xH p)
      end
  | _ => 0%Q
  end.

(** The magnitude [m * 2^e] of a finite value. *)
Definition magnitude (m : positive) (e : Z) : Q :=
  (inject_Z (Z.pos m) * (2 # 1) ^ e)%Q.

(** IEEE comparison: unordered when an operand is NaN, infinities at the
    ends, otherwise the order of the denoted numbers (so [-0 == +0], and
    a [float] compares with a [double] as C++ does after promotion). *)
Definition compare (a b : spec_float) : option comparison :=
  match a, b with
  | S754_nan, _ | _, S754_nan => None
  | S754_infinity s1, S754_infinity s2 =>
      Some (match s1, s2 with
            | true, true | false, false => Eq
            | true, false => Lt
            | false, true => Gt
            end)
  | S754_infinity s, _ => Some (if s then Lt else Gt)
  | _, S754_infinity s => Some (if s then Gt else Lt)
  | _, _ => Some (value a ?= value b)%Q
  end.

(** C++ [a < b], [a > b], [a <= b], [a >= b]. *)
Definition ltb (a b : spec_float) : bool :=
  match compare a b with Some Lt => true | _ => false end.
Definition gtb (a b : spec_float) : bool :=
  match compare a b with Some Gt => true | _ => false end.
Definition leb (a b : spec_float) : bool :=
  match compare a b with Some (Lt | Eq) => true | _ => false end.
Definition geb (a b : spec_float) : bool :=
  match compare a b with Some (Gt | Eq) => true | _ => false end.

(** Unary minus. *)
Definition neg : spec_float -> spec_float := SFopp.

(** binary32 arithmetic. *)
Definition add32 : float -> float -> float := SFadd 24 128.
Definition div32 : float -> float -> float := SFdiv 24 128.
(** Conversion of an integer to [float], rounding to nearest even. *)
Definition of_Z32 (z : Z) : float := binary_normalize 24 128 z 0 false.

(** binary64 arithmetic. *)
Definition sub64 : double -> double -> double := SFsub 53 1024.
Definition div64 : double -> double -> double := SFdiv 53 1024.
Definition of_Z64 (z : Z) : double := binary_normalize 53 1024 z 0 false.

(** The [double] literal [n / 10^k] written in decimal in the source,
    e.g. [0.36] is [dec 36 2]: the correctly rounded quotient of two
    exactly representable integers is the nearest [double]. *)
Definition dec (n : Z) (k : positive) : double :=
  div64 (of_Z64 n) (of_Z64 (Z.pow_pos 10 k)).

(** The same for a point coordinate stored as [float]. *)
Definition dec32 (n : Z) (k : positive) : float :=
  div32 (of_Z32 n) (of_Z32 (Z.pow_pos 10 k)).

Definition zero : spec_float := S754_zero false.

(** The conversion C++ inserts where a [float] meets a [double]: the same
    number written in binary64.  The embedding leaves it out, see
    [promotion_examples]. *)
Definition promote (a : float) : double :=
  match a with
  | S754_finite s m e =>
      binary_normalize 53 1024 (if s then Z.neg m else Z.pos m) e false
  | _ => a
  end.

(** [std::min(a, b)], which is [(b < a) ? b : a]. *)
Definition min (a b : spec_float) : spec_float :=
  if ltb b a then b else a.

End FP.

(** ** Data model *)

(** [pcl::PointXYZ]: three [float] coordinates in the sensor frame. *)
Record Point := { pt_x : FP.float; pt_y : FP.float; pt_z : FP.float }.

(** [geometry_msgs::Twist], restricted to the two fields the nodelet
    writes; a default-constructed message has every field at zero and the
    other four fields are never assigned. *)
Record Twist := { linear_x : FP.double; angular_z : FP.double }.

Definition Twist_new : Twist := {| linear_x := FP.zero; angular_z := FP.zero |}.

Definition set_linear_x (cmd : Twist) (v : FP.double) : Twist :=
  {| linear_x := v; angular_z := angular_z cmd |}.
Definition set_angular_z (cmd : Twist) (v : FP.double) : Twist :=
  {| linear_x := linear_x cmd; angular_z := v |}.

(** Modelled from the spec: the bumper event message
    ([kobuki_msgs/BumperEvent] is declared outside src/), an event
    [{side: Left|Center|Right, state: Pressed|Released}]. *)
Inductive Bumper := LEFT | CENTER | RIGHT.
Inductive BumperState := RELEASED | PRESSED.
Record BumperEvent := { bumper : Bumper; state : BumperState }.

(** Modelled from the spec: the mode request and its answer
    ([turtlebot_msgs/SetFollowState] is declared outside src/), a request
    [{state: Follow|Stopped}] answered by an acknowledgement result. *)
Inductive FollowState := STOPPED | FOLLOW.
Inductive Result := OK | ERROR.

(** The fields of [class TurtlebotFollower]. *)
Record Follower := {
  min_y_ : FP.double;
  max_y_ : FP.double;
  min_x_ : FP.double;
  max_x_ : FP.double;
  max_z_ : FP.double;
  goal_z_ : FP.double;
  z_scale_ : FP.double;
  x_scale_ : FP.double;
  enabled_ : bool;
  bumper_left_pressed_ : bool;
  bumper_center_pressed_ : bool;
  bumper_right_pressed_ : bool;
  change_direction_ : bool
}.

Definition set_enabled (st : Follower) (b : bool) : Follower :=
  {| min_y_ := min_y_ st; max_y_ := max_y_ st; min_x_ := min_x_ st;
     max_x_ := max_x_ st; max_z_ := max_z_ st; goal_z_ := goal_z_ st;
     z_scale_ := z_scale_ st; x_scale_ := x_scale_ st;
     enabled_ := b;
     bumper_left_pressed_ := bumper_left_pressed_ st;
     bumper_center_pressed_ := bumper_center_pressed_ st;
     bumper_right_pressed_ := bumper_right_pressed_ st;
     change_direction_ := change_direction_ st |}.

Definition set_bumper_left_pressed (st : Follower) (b : bool) : Follower :=
  {| min_y_ := min_y_ st; max_y_ := max_y_ st; min_x_ := min_x_ st;
     max_x_ := max_x_ st; max_z_ := max_z_ st; goal_z_ := goal_z_ st;
     z_scale_ := z_scale_ st; x_scale_ := x_scale_ st;
     enabled_ := enabled_ st;
     bumper_left_pressed_ := b;
     bumper_center_pressed_ := bumper_center_pressed_ st;
     bumper_right_pressed_ := bumper_right_pressed_ st;
     change_direction_ := change_direction_ st |}.

Definition set_bumper_center_pressed (st : Follower) (b : bool) : Follower :=
  {| min_y_ := min_y_ st; max_y_ := max_y_ st; min_x_ := min_x_ st;
     max_x_ := max_x_ st; max_z_ := max_z_ st; goal_z_ := goal_z_ st;
     z_scale_ := z_scale_ st; x_scale_ := x_scale_ st;
     enabled_ := enabled_ st;
     bumper_left_pressed_ := bumper_left_pressed_ st;
     bumper_center_pressed_ := b;
     bumper_right_pressed_ := bumper_right_pressed_ st;
     change_direction_ := change_direction_ st |}.

Definition set_bumper_right_pressed (st : Follower) (b : bool) : Follower :=
  {| min_y_ := min_y_ st; max_y_ := max_y_ st; min_x_ := min_x_ st;
     max_x_ := max_x_ st; max_z_ := max_z_ st; goal_z_ := goal_z_ st;
     z_scale_ := z_scale_ st; x_scale_ := x_scale_ st;
     enabled_ := enabled_ st;
     bumper_left_pressed_ := bumper_left_pressed_ st;
     bumper_center_pressed_ := bumper_center_pressed_ st;
     bumper_right_pressed_ := b;
     change_direction_ := change_direction_ st |}.

Definition set_change_direction (st : Follower) (b : bool) : Follower :=
  {| min_y_ := min_y_ st; max_y_ := max_y_ st; min_x_ := min_x_ st;
     max_x_ := max_x_ st; max_z_ := max_z_ st; goal_z_ := goal_z_ st;
     z_scale_ := z_scale_ st; x_scale_ := x_scale_ st;
     enabled_ := enabled_ st;
     bumper_left_pressed_ := bumper_left_pressed_ st;
     bumper_center_pressed_ := bumper_center_pressed_ st;
     bumper_right_pressed_ := bumper_right_pressed_ st;
     change_direction_ := b |}.

(** The constructor's initialiser list (lines 64-71).  [enabled_] is not
    initialised there; [onInit] reads it from the parameter server, so it
    is an argument here. *)
Definition TurtlebotFollower (enabled : bool) : Follower :=
  {| min_y_ := FP.dec 1 1; max_y_ := FP.dec 5 1;
     min_x_ := FP.neg (FP.dec 2 1); max_x_ := FP.dec 2 1;
     max_z_ := FP.dec 8 1; goal_z_ := FP.dec 6 1;
     z_scale_ := FP.of_Z64 1; x_scale_ := FP.of_Z64 5;
     enabled_ := enabled;
     bumper_left_pressed_ := false;
     bumper_center_pressed_ := false;
     bumper_right_pressed_ := false;
     change_direction_ := false |}.

(** Modelled from the spec: the configuration snapshot
    ([turtlebot_follower/FollowerConfig.h] is generated outside src/), the
    recognised options [min_y], [max_y], [min_x], [max_x], [max_z],
    [goal_z], [z_scale], [x_scale]. *)
Record FollowerConfig := {
  cfg_min_y : FP.double; cfg_max_y : FP.double;
  cfg_min_x : FP.double; cfg_max_x : FP.double;
  cfg_max_z : FP.double; cfg_goal_z : FP.double;
  cfg_z_scale : FP.double; cfg_x_scale : FP.double
}.

(** ** reconfigure (lines 139-149) *)

Definition reconfigure (st : Follower) (config : FollowerConfig) : Follower :=
  {| min_y_ := cfg_min_y config; max_y_ := cfg_max_y config;
     min_x_ := cfg_min_x config; max_x_ := cfg_max_x config;
     max_z_ := cfg_max_z config; goal_z_ := cfg_goal_z config;
     z_scale_ := cfg_z_scale config; x_scale_ := cfg_x_scale config;
     enabled_ := enabled_ st;
     bumper_left_pressed_ := bumper_left_pressed_ st;
     bumper_center_pressed_ := bumper_center_pressed_ st;
     bumper_right_pressed_ := bumper_right_pressed_ st;
     change_direction_ := change_direction_ st |}.

(** ** bumperEventCB (lines 151-190) *)

(** The flag of one side. *)
Definition pressed (st : Follower) (b : Bumper) : bool :=
  match b with
  | LEFT => bumper_left_pressed_ st
  | CENTER => bumper_center_pressed_ st
  | RIGHT => bumper_right_pressed_ st
  end.

(** The callback returns the new fields and the [ROS_INFO] lines it
    printed: one line is printed exactly where [change_direction_] is set. *)
Definition bumperEventCB (st : Follower) (msg : BumperEvent)
  : Follower * list string :=
  match state msg with
  | PRESSED =>
      match bumper msg with
      | LEFT =>
          if negb (bumper_left_pressed_ st) then
            (set_change_direction (set_bumper_left_pressed st true) true,
             ["bumper_left_pressed_,bumperEventCB"%string])
          else (st, [])
      | CENTER =>
          if negb (bumper_center_pressed_ st) then
            (set_change_direction (set_bumper_center_pressed st true) true,
             ["bumper_center_pressed_,bumperEventCB"%string])
          else (st, [])
      | RIGHT =>
          if negb (bumper_right_pressed_ st) then
            (set_change_direction (set_bumper_right_pressed st true) true,
             ["bumper_right_pressed_"%string])
          else (st, [])
      end
  | RELEASED =>
      match bumper msg with
      | LEFT => (set_bumper_left_pressed st false, [])
      | CENTER => (set_bumper_center_pressed st false, [])
      | RIGHT => (set_bumper_right_pressed st false, [])
      end
  end.

(** ** The box filter of cloudcb (lines 201-235) *)

(** The locals [x], [y], [z], [n] of [cloudcb]; [n] is an
    [unsigned int]. *)
Record Acc := { acc_x : FP.float; acc_y : FP.float; acc_z : FP.float; acc_n : Z }.

(** Lines 202-206: [x = 0.0], [y = 0.0], [z = 1e6], [n = 0]. *)
Definition acc_init : Acc :=
  {| acc_x := FP.zero; acc_y := FP.zero; acc_z := FP.of_Z32 1000000; acc_n := 0 |}.

(** Line 219, the box test. *)
Definition in_box (st : Follower) (pt : Point) : bool :=
  FP.gtb (FP.neg (pt_y pt)) (min_y_ st) &&
  FP.ltb (FP.neg (pt_y pt)) (max_y_ st) &&
  FP.ltb (pt_x pt) (max_x_ st) &&
  FP.gtb (pt_x pt) (min_x_ st) &&
  FP.ltb (pt_z pt) (max_z_ st).

(** Lines 216-227, the body of the [BOOST_FOREACH] loop.  The guard of
    line 216 reads the accumulators [x], [y], [z], as the source does. *)
Definition accumulate_point (st : Follower) (a : Acc) (pt : Point) : Acc :=
  if negb (FP.isnan (acc_x a)) && negb (FP.isnan (acc_y a)) &&
     negb (FP.isnan (acc_z a)) then
    if in_box st pt then
      {| acc_x := FP.add32 (acc_x a) (pt_x pt);
         acc_y := FP.add32 (acc_y a) (pt_y pt);
         acc_z := FP.min (acc_z a) (pt_z pt);
         acc_n := (acc_n a + 1) mod 2 ^ 32 |}
    else a
  else a.

(** Lines 212-228. *)
Definition accumulate (st : Follower) (points : list Point) : Acc :=
  fold_left (accumulate_point st) points acc_init.

(** The centroid of the spec's data model: the locals after the test of
    line 232 and the two divisions of lines 234-235 ([x /= n] converts the
    [unsigned int] to [float]); [x] and [y] stay undivided sums when the
    test fails. *)
Record Centroid := {
  c_x : FP.float; c_y : FP.float; c_z_min : FP.float; c_count : Z; c_found : bool
}.

Definition centroid (st : Follower) (points : list Point) : Centroid :=
  let a := accumulate st points in
  if acc_n a >? 4000 then
    {| c_x := FP.div32 (acc_x a) (FP.of_Z32 (acc_n a));
       c_y := FP.div32 (acc_y a) (FP.of_Z32 (acc_n a));
       c_z_min := acc_z a; c_count := acc_n a; c_found := true |}
  else
    {| c_x := acc_x a; c_y := acc_y a;
       c_z_min := acc_z a; c_count := acc_n a; c_found := false |}.

(** ** The recovery loops of cloudcb *)

(** One of the nine loops
    [while (ros::ok() && change_direction_) { count++; ...; publish; sleep;
       if (count > limit) { change_direction_ = false; count = 0; } }]
    with its two constants; [ros::ok()] holds while the node runs.  The
    loop returns the fields and the commands published so far, or [None]
    when [fuel] iterations did not end it. *)
Fixpoint recovery_loop (fuel : nat) (ang : FP.double) (limit : Z)
  (st : Follower) (cmd : Twist) (count : Z) (out : list Twist)
  : option (Follower * list Twist) :=
  if change_direction_ st then
    match fuel with
    | O => None
    | S fuel' =>
        let count := count + 1 in
        let cmd := set_angular_z cmd ang in
        let cmd := set_linear_x cmd (FP.neg (FP.dec 2 1)) in
        let out := out ++ [cmd] in
        if count >? limit then
          recovery_loop fuel' ang limit (set_change_direction st false) cmd 0 out
        else
          recovery_loop fuel' ang limit st cmd count out
    end
  else Some (st, out).

(** ** The turn selection of cloudcb *)

(** Lines 283-324, the Approach regime without a pressed bumper.  The
    result carries the command and the final value of the local
    [direction]; [rnd] is the value [rand()] returns. *)
Definition approach_turn (st : Follower) (x : FP.float) (rnd : Z)
  (cmd : Twist) (direction : bool) : Twist * bool :=
  let cmd := set_linear_x cmd (FP.dec 2 1) in
  if FP.gtb x (FP.dec 2 1) then
    let direction := true in
    let rand_angular := FP.of_Z64 (Z.rem rnd 7) in
    let rand_angular := FP.div64 rand_angular (FP.of_Z64 7) in
    if FP.gtb rand_angular (FP.dec 7 1) && FP.leb rand_angular (FP.of_Z64 1) then
      (set_angular_z cmd (FP.dec 4 1), direction)
    else if FP.gtb rand_angular (FP.dec 4 1) && FP.leb rand_angular (FP.dec 7 1) then
      (set_angular_z cmd rand_angular, direction)
    else
      (set_angular_z cmd (FP.dec 3 1), direction)
  else if FP.ltb x (FP.neg (FP.dec 2 1)) then
    let direction := false in
    let rand_angular := FP.of_Z64 (Z.rem rnd 7) in
    let rand_angular :=
      FP.sub64 (FP.div64 rand_angular (FP.of_Z64 7)) (FP.of_Z64 1) in
    if FP.geb rand_angular (FP.neg (FP.of_Z64 1)) &&
       FP.ltb rand_angular (FP.neg (FP.dec 7 1)) then
      (set_angular_z cmd (FP.neg (FP.dec 36 2)), direction)
    else if FP.geb rand_angular (FP.neg (FP.dec 7 1)) &&
            FP.ltb rand_angular (FP.neg (FP.dec 5 1)) then
      (set_angular_z cmd rand_angular, direction)
    else
      (set_angular_z cmd (FP.neg (FP.dec 2 1)), direction)
  else
    if direction then (set_angular_z cmd (FP.dec 3 1), direction)
    else if negb (change_direction_ st) then
      (set_angular_z cmd (FP.neg (FP.dec 3 1)), direction)
    else (cmd, direction).

(** [#define MAX 10]. *)
Definition MAX : Z := 10.

(** Lines 370-413, the Hold regime without a pressed bumper. *)
Definition hold_turn (x : FP.float) (rnd : Z) (cmd : Twist) (direction : bool)
  : Twist * bool :=
  let cmd := set_linear_x cmd (FP.of_Z64 0) in
  if FP.gtb x (FP.dec 2 1) then
    let num := Z.rem rnd MAX in
    let ang := FP.div64 (FP.of_Z64 num) (FP.of_Z64 MAX) in
    let direction := true in
    if FP.gtb ang (FP.dec 7 1) && FP.leb ang (FP.of_Z64 1) then
      (set_angular_z cmd (FP.dec 4 1), direction)
    else if FP.gtb ang (FP.dec 4 1) && FP.leb ang (FP.dec 7 1) then
      (set_angular_z cmd ang, direction)
    else
      (set_angular_z cmd (FP.dec 3 1), direction)
  else if FP.ltb x (FP.neg (FP.dec 2 1)) then
    let num := Z.rem rnd MAX in
    let ang := FP.div64 (FP.of_Z64 num) (FP.of_Z64 MAX) in
    let ang := FP.sub64 ang (FP.of_Z64 1) in
    let direction := false in
    if FP.geb ang (FP.neg (FP.of_Z64 1)) && FP.ltb ang (FP.neg (FP.dec 7 1)) then
      (set_angular_z cmd (FP.neg (FP.dec 2 1)), direction)
    else if FP.geb ang (FP.neg (FP.dec 7 1)) && FP.ltb ang (FP.neg (FP.dec 4 1)) then
      (set_angular_z cmd ang, direction)
    else
      (set_angular_z cmd (FP.neg (FP.dec 2 1)), direction)
  else
    if direction then (set_angular_z cmd (FP.dec 3 1), direction)
    else (set_angular_z cmd (FP.neg (FP.dec 3 1)), direction).

(** ** cloudcb (lines 199-475) *)

(** One call of [cloudcb]: the point cloud and the value the call's
    [rand()] returns ([srand(time(NULL))] reseeds before every draw). *)
Record Frame := { points : list Point; rnd : Z }.

(** The dispatch regime of a frame (lines 232, 236). *)
Inductive Regime := Approach | Hold | NoCentroid.

Definition regime (st : Follower) (fr : Frame) : Regime :=
  let c := centroid st (points fr) in
  if c_found c then
    if FP.gtb (FP.sub64 (c_z_min c) (goal_z_ st)) (FP.of_Z64 0) then Approach
    else Hold
  else NoCentroid.

Definition cloudcb (fuel : nat) (st : Follower) (fr : Frame)
  : option (Follower * list Twist) :=
  let c := centroid st (points fr) in
  let direction := false in
  let count := 0 in
  if c_found c then
    if FP.gtb (FP.sub64 (c_z_min c) (goal_z_ st)) (FP.of_Z64 0) then
      let cmd := Twist_new in
      if bumper_left_pressed_ st then
        recovery_loop fuel (FP.neg (FP.dec 4 1)) 15 st cmd count []
      else if bumper_center_pressed_ st then
        recovery_loop fuel (FP.neg (FP.dec 5 1)) 20 st cmd count []
      else if bumper_right_pressed_ st then
        recovery_loop fuel (FP.dec 4 1) 15 st cmd count []
      else
        let '(cmd, _) := approach_turn st (c_x c) (rnd fr) cmd direction in
        Some (st, [cmd])
    else
      let cmd := Twist_new in
      if bumper_left_pressed_ st then
        recovery_loop fuel (FP.neg (FP.dec 4 1)) 15 st cmd count []
      else if bumper_center_pressed_ st then
        recovery_loop fuel (FP.neg (FP.dec 4 1)) 20 st cmd count []
      else if bumper_right_pressed_ st then
        recovery_loop fuel (FP.dec 4 1) 15 st cmd count []
      else
        let '(cmd, _) := hold_turn (c_x c) (rnd fr) cmd direction in
        Some (st, [cmd])
  else
    if enabled_ st then
      let cmd := Twist_new in
      if bumper_left_pressed_ st then
        recovery_loop fuel (FP.neg (FP.dec 4 1)) 15 st cmd count []
      else if bumper_center_pressed_ st then
        recovery_loop fuel (FP.neg (FP.dec 5 1)) 20 st cmd count []
      else if bumper_right_pressed_ st then
        recovery_loop fuel (FP.dec 4 1) 15 st cmd count []
      else
        let cmd := set_linear_x cmd (FP.dec 2 1) in
        Some (st, [cmd])
    else Some (st, []).

(** ** changeModeSrvCb (lines 477-494) *)

(** The service callback: the new fields, the commands published, the
    [response.result] it wrote and the value it returns. *)
Definition changeModeSrvCb (st : Follower) (request_state : FollowState)
  : Follower * list Twist * Result * bool :=
  let '(st, out) :=
    match enabled_ st, request_state with
    | true, STOPPED => (set_enabled st false, [Twist_new])
    | false, FOLLOW => (set_enabled st true, [])
    | _, _ => (st, [])
    end in
  (st, out, OK, true).

(** ** The callback queue *)

(** A message taken from the nodelet's callback queue. *)
Inductive Message :=
| MsgBumper (msg : BumperEvent)
| MsgCloud (fr : Frame)
| MsgMode (request_state : FollowState)
| MsgReconfigure (config : FollowerConfig).

(** Handling one message: the new fields and the commands published. *)
Definition handle (fuel : nat) (st : Follower) (m : Message)
  : option (Follower * list Twist) :=
  match m with
  | MsgBumper msg => Some (fst (bumperEventCB st msg), [])
  | MsgCloud fr => cloudcb fuel st fr
  | MsgMode r => let '(st', out, _, _) := changeModeSrvCb st r in Some (st', out)
  | MsgReconfigure config => Some (reconfigure st config, [])
  end.

(** Handling a queue of messages in order; the published commands are
    kept per message. *)
Fixpoint run (fuel : nat) (st : Follower) (ms : list Message)
  : option (Follower * list (list Twist)) :=
  match ms with
  | [] => Some (st, [])
  | m :: ms' =>
      match handle fuel st m with
      | None => None
      | Some (st', out) =>
          match run fuel st' ms' with
          | None => None
          | Some (st'', outs) => Some (st'', out :: outs)
          end
      end
  end.

(** ** Notions of the specification *)

(** The points of a frame that pass the box test, in frame order. *)
Definition passing (st : Follower) (pts : list Point) : list Point :=
  filter (in_box st) pts.

(** The arithmetic mean of the numbers a list of finite [float]s denotes:
    their exact sum over their number, a rational. *)
Definition arithmetic_mean (l : list FP.float) : Q :=
  (fold_right Qplus 0 (map FP.value l) / inject_Z (Z.of_nat (length l)))%Q.

(** What the loop accumulates instead: the binary32 running sum of a list,
    taken in list order and rounded at every step. *)
Definition sum32 (l : list FP.float) : FP.float := fold_left FP.add32 l FP.zero.

(** [m] is the minimum of [l]: an element that no element is below. *)
Definition is_minimum (m : FP.float) (l : list FP.float) : Prop :=
  In m l /\ forall v, In v l -> FP.ltb v m = false.

(** A point with a NaN in one of its coordinates. *)
Definition has_nan (pt : Point) : bool :=
  FP.isnan (pt_x pt) || FP.isnan (pt_y pt) || FP.isnan (pt_z pt).

(** Accumulators free of NaN, the guard of line 216. *)
Definition no_nan (a : Acc) : Prop :=
  FP.isnan (acc_x a) = false /\ FP.isnan (acc_y a) = false /\
  FP.isnan (acc_z a) = false.

(** Some side is pressed. *)
Definition any_pressed (st : Follower) : bool :=
  bumper_left_pressed_ st || bumper_center_pressed_ st || bumper_right_pressed_ st.

(** The side whose recovery branch a frame takes: the [if / else if]
    chains of [cloudcb] test left, center, right in this order. *)
Definition recovery_side (st : Follower) : option Bumper :=
  if bumper_left_pressed_ st then Some LEFT
  else if bumper_center_pressed_ st then Some CENTER
  else if bumper_right_pressed_ st then Some RIGHT
  else None.

(** The table of the recovery maneuver in the specification (section 4.3):
    side, [angular_z], [linear_x], tick budget. *)
Definition table_linear_x : FP.double := FP.neg (FP.dec 2 1).
Definition table_angular_z (side : Bumper) : FP.double :=
  match side with
  | LEFT => FP.neg (FP.dec 4 1)
  | CENTER => FP.neg (FP.dec 5 1)
  | RIGHT => FP.dec 4 1
  end.
Definition tick_budget (side : Bumper) : nat :=
  match side with LEFT | RIGHT => 15 | CENTER => 20 end.

(** A recovery command: the table's [linear_x] and a given [angular_z]. *)
Definition recovery_cmd (ang : FP.double) : Twist :=
  {| linear_x := table_linear_x; angular_z := ang |}.

Definition press (side : Bumper) : BumperEvent :=
  {| bumper := side; state := PRESSED |}.
Definition release (side : Bumper) : BumperEvent :=
  {| bumper := side; state := RELEASED |}.

(** The fields after a sequence of bumper events. *)
Definition after (st : Follower) (evs : list BumperEvent) : Follower :=
  fold_left (fun s e => fst (bumperEventCB s e)) evs st.

(** The number of recovery requests a sequence of bumper events raises:
    [bumperEventCB] prints one line exactly where it sets
    [change_direction_ = true]. *)
Fixpoint requests_raised (st : Follower) (evs : list BumperEvent) : nat :=
  match evs with
  | [] => 0%nat
  | e :: evs' =>
      let '(st', log) := bumperEventCB st e in
      (length log + requests_raised st' evs')%nat
  end.

(** A frame that makes a decisive turn: a centroid is found, no bumper is
    pressed and the centroid's [x] is beyond [0.2] or below [-0.2]
    (lines 284, 300, 373, 389). *)
Definition decisive (st : Follower) (fr : Frame) : bool :=
  let c := centroid st (points fr) in
  c_found c && negb (any_pressed st) &&
  (FP.gtb (c_x c) (FP.dec 2 1) || FP.ltb (c_x c) (FP.neg (FP.dec 2 1))).

(** No frame of the queue [ms], handled from [st] on, makes a decisive turn. *)
Fixpoint no_decisive_turn (fuel : nat) (st : Follower) (ms : list Message) : Prop :=
  match ms with
  | [] => True
  | m :: ms' =>
      match m with MsgCloud fr => decisive st fr = false | _ => True end /\
      match handle fuel st m with
      | Some (st', _) => no_decisive_turn fuel st' ms'
      | None => True
      end
  end.

(** ** Concrete inputs *)

(** The point with coordinates [x/100], [y/100], [z/100]. *)
Definition point3 (x y z : Z) : Point :=
  {| pt_x := FP.dec32 x 2; pt_y := FP.dec32 y 2; pt_z := FP.dec32 z 2 |}.

(** An empty cloud; 4001 points at [(0.05, -0.3, 0.7)], beyond the goal
    distance; 4001 points at [(0.05, -0.3, 0.5)], inside the goal distance;
    4001 points at [(0.3, -0.3, 0.5)], to the right. *)
Definition frame_empty : Frame := {| points := []; rnd := 0 |}.
Definition frame_approach : Frame :=
  {| points := repeat (point3 5 (-30) 70) 4001; rnd := 0 |}.
Definition frame_hold : Frame :=
  {| points := repeat (point3 5 (-30) 50) 4001; rnd := 0 |}.
Definition frame_right : Frame :=
  {| points := repeat (point3 30 (-30) 50) 4001; rnd := 3 |}.

(** The default box widened to [-0.5 < x < 0.5]. *)
Definition wide_box : FollowerConfig :=
  {| cfg_min_y := FP.dec 1 1; cfg_max_y := FP.dec 5 1;
     cfg_min_x := FP.neg (FP.dec 5 1); cfg_max_x := FP.dec 5 1;
     cfg_max_z := FP.dec 8 1; cfg_goal_z := FP.dec 6 1;
     cfg_z_scale := FP.of_Z64 1; cfg_x_scale := FP.of_Z64 5 |}.

(** The default box with [max_z] moved to [1e7], and 4001 points inside
    it at [z = 2e6]. *)
Definition far_box : FollowerConfig :=
  {| cfg_min_y := FP.dec 1 1; cfg_max_y := FP.dec 5 1;
     cfg_min_x := FP.neg (FP.dec 2 1); cfg_max_x := FP.dec 2 1;
     cfg_max_z := FP.of_Z64 10000000; cfg_goal_z := FP.dec 6 1;
     cfg_z_scale := FP.of_Z64 1; cfg_x_scale := FP.of_Z64 5 |}.
Definition point_far : Point :=
  {| pt_x := FP.dec32 5 2; pt_y := FP.dec32 (-30) 2; pt_z := FP.of_Z32 2000000 |}.
Definition frame_far : Frame := {| points := repeat point_far 4001; rnd := 0 |}.

(** The number of values of an [unsigned int]. *)
Definition wrap_count : nat := Z.to_nat (2 ^ 32).

(** The nodelet after construction, enabled and disabled. *)
Definition st_on : Follower := TurtlebotFollower true.
Definition st_off : Follower := TurtlebotFollower false.

(** ** The debug markers (lines 496-556) *)






(** ** Further notions *)

(** The configuration snapshot held in the fields, the inverse reading of
    [reconfigure]. *)
Definition box_of (st : Follower) : FollowerConfig :=
  {| cfg_min_y := min_y_ st; cfg_max_y := max_y_ st;
     cfg_min_x := min_x_ st; cfg_max_x := max_x_ st;
     cfg_max_z := max_z_ st; cfg_goal_z := goal_z_ st;
     cfg_z_scale := z_scale_ st; cfg_x_scale := x_scale_ st |}.

(** The three pressed flags, left, center, right. *)
Definition flags_of (st : Follower) : bool * bool * bool :=
  (bumper_left_pressed_ st, bumper_center_pressed_ st, bumper_right_pressed_ st).

Definition Bumper_eqb (a b : Bumper) : bool :=
  match a, b with
  | LEFT, LEFT | CENTER, CENTER | RIGHT, RIGHT => true
  | _, _ => false
  end.

(** The state the last event of [evs] about [side] reports, if any. *)
Fixpoint last_state (side : Bumper) (evs : list BumperEvent) : option BumperState :=
  match evs with
  | [] => None
  | e :: evs' =>
      match last_state side evs' with
      | Some s => Some s
      | None => if Bumper_eqb (bumper e) side then Some (state e) else None
      end
  end.

Definition is_bumper_msg (m : Message) : bool :=
  match m with MsgBumper _ => true | _ => false end.
Definition is_cloud_msg (m : Message) : bool :=
  match m with MsgCloud _ => true | _ => false end.
Definition is_mode_msg (m : Message) : bool :=
  match m with MsgMode _ => true | _ => false end.
Definition is_reconfigure_msg (m : Message) : bool :=
  match m with MsgReconfigure _ => true | _ => false end.

(** The velocities the nodelet ever commands: [linear_x] is one of
    [-0.2], [0], [0.2] and [angular_z] lies in [[-0.7, 0.7]]. *)
Definition velocity_ok (cmd : Twist) : Prop :=
  (linear_x cmd = FP.neg (FP.dec 2 1) \/ linear_x cmd = FP.zero \/
   linear_x cmd = FP.dec 2 1) /\
  FP.leb (FP.neg (FP.dec 7 1)) (angular_z cmd) = true /\
  FP.leb (angular_z cmd) (FP.dec 7 1) = true.

(** The fields and the commands of one mode request. *)
Definition mode_fields (st : Follower) (r : FollowState) : Follower :=
  fst (fst (fst (changeModeSrvCb st r))).
Definition mode_commands (st : Follower) (r : FollowState) : list Twist :=
  snd (fst (fst (changeModeSrvCb st r))).

(** 4000 points inside the default box; a box with its [x] bounds swapped. *)
Definition frame_sparse : Frame :=
  {| points := repeat (point3 5 (-30) 50) 4000; rnd := 0 |}.
Definition swapped_box : FollowerConfig :=
  {| cfg_min_y := FP.dec 1 1; cfg_max_y := FP.dec 5 1;
     cfg_min_x := FP.dec 2 1; cfg_max_x := FP.neg (FP.dec 2 1);
     cfg_max_z := FP.dec 8 1; cfg_goal_z := FP.dec 6 1;
     cfg_z_scale := FP.of_Z64 1; cfg_x_scale := FP.of_Z64 5 |}.

(** * Properties *)

(** ** The literals and the comparison at work *)

Example dec_one_tenth :
  FP.dec 1 1 = S754_finite false 7205759403792794 (-56).
Proof. vm_compute. reflexivity. Qed.

Example float_against_double :
  FP.ltb (FP.dec32 3 1) (FP.dec 3 1) = false /\
  FP.gtb (FP.dec32 3 1) (FP.dec 3 1) = true /\
  FP.ltb (FP.dec32 5 2) (FP.dec 2 1) = true.
Proof. vm_compute. repeat split; reflexivity. Qed.

(** Promotion changes the representation, not the number: the promoted
    value is a valid binary64 number that compares equal to the [float],
    and the binary64 subtraction gives the same result on both. *)
Example promotion_examples :
  Forall (fun a =>
            valid_binary 24 128 a = true /\
            valid_binary 53 1024 (FP.promote a) = true /\
            FP.compare (FP.promote a) a = Some Eq /\
            FP.sub64 (FP.promote a) (FP.dec 6 1) = FP.sub64 a (FP.dec 6 1))
    [FP.dec32 5 2; FP.dec32 30 2; FP.dec32 (-30) 2; FP.dec32 50 2;
     FP.dec32 70 2; FP.of_Z32 1000000].
Proof. repeat constructor; vm_compute; reflexivity. Qed.

(** ** Order facts *)

Lemma compare_fin (a b : spec_float) :
  FP.is_finite a = true -> FP.is_finite b = true ->
  FP.compare a b = Some (FP.value a ?= FP.value b)%Q.
Proof. destruct a, b; simpl; intros; try discriminate; reflexivity. Qed.

Lemma ltb_fin (a b : spec_float) :
  FP.is_finite a = true -> FP.is_finite b = true ->
  FP.ltb a b = true <-> (FP.value a < FP.value b)%Q.
Proof.
  intros Ha Hb. unfold FP.ltb. rewrite (compare_fin a b Ha Hb), Qlt_alt.
  destruct (FP.value a ?= FP.value b)%Q; split; congruence.
Qed.

Lemma leb_fin (a b : spec_float) :
  FP.is_finite a = true -> FP.is_finite b = true ->
  FP.leb a b = true <-> (FP.value a <= FP.value b)%Q.
Proof.
  intros Ha Hb. unfold FP.leb. rewrite (compare_fin a b Ha Hb), Qle_alt.
  destruct (FP.value a ?= FP.value b)%Q; split; congruence.
Qed.

Ltac fin_cases :=
  repeat match goal with
  | H : FP.ltb ?a ?b = true |- _ => rewrite (ltb_fin a b eq_refl eq_refl) in H
  | H : FP.leb ?a ?b = true |- _ => rewrite (leb_fin a b eq_refl eq_refl) in H
  | |- FP.ltb ?a ?b = true => rewrite (ltb_fin a b eq_refl eq_refl)
  end.

(** [a > b] is [b < a]. *)
Lemma gtb_ltb (a b : spec_float) : FP.gtb a b = FP.ltb b a.
Proof.
  unfold FP.gtb, FP.ltb.
  destruct a as [s1| [|] | |s1 m1 e1], b as [s2| [|] | |s2 m2 e2];
    try reflexivity;
    cbn [FP.compare]; rewrite <- (Qcompare_antisym (FP.value _) (FP.value _));
    destruct (_ ?= _)%Q; reflexivity.
Qed.

Lemma ltb_irrefl (a : spec_float) : FP.ltb a a = false.
Proof.
  destruct a as [s| [|] | |s m e]; try reflexivity;
    unfold FP.ltb; cbn [FP.compare];
    rewrite (proj1 (Qeq_alt _ _) (Qeq_refl _)); reflexivity.
Qed.

Lemma ltb_trans (a b c : spec_float) :
  FP.ltb a b = true -> FP.ltb b c = true -> FP.ltb a c = true.
Proof.
  destruct a as [s1| [|] | |s1 m1 e1], b as [s2| [|] | |s2 m2 e2],
           c as [s3| [|] | |s3 m3 e3];
    intros H1 H2; try discriminate; try reflexivity;
    fin_cases; eapply Qlt_trans; eassumption.
Qed.

Lemma ltb_leb_trans (a b c : spec_float) :
  FP.ltb a b = true -> FP.leb b c = true -> FP.ltb a c = true.
Proof.
  destruct a as [s1| [|] | |s1 m1 e1], b as [s2| [|] | |s2 m2 e2],
           c as [s3| [|] | |s3 m3 e3];
    intros H1 H2; try discriminate; try reflexivity;
    fin_cases; eapply Qlt_le_trans; eassumption.
Qed.

(** Below [c] means below [b] or above it, for a number [b]. *)
Lemma ltb_cotrans (a b c : spec_float) :
  FP.isnan b = false -> FP.ltb a c = true ->
  FP.ltb a b = true \/ FP.ltb b c = true.
Proof.
  destruct a as [s1| [|] | |s1 m1 e1], b as [s2| [|] | |s2 m2 e2],
           c as [s3| [|] | |s3 m3 e3];
    intros Hb H; try discriminate; auto;
    fin_cases;
    match goal with
    | |- FP.ltb ?x ?y = true \/ FP.ltb ?y ?z = true =>
        rewrite (ltb_fin x y eq_refl eq_refl), (ltb_fin y z eq_refl eq_refl);
        destruct (Qlt_le_dec (FP.value x) (FP.value y)) as [Hl|Hl];
        [left; exact Hl | right; eapply Qle_lt_trans; eassumption]
    end.
Qed.

(** A value strictly between two others is a finite number. *)
Lemma between_finite (lo a hi : spec_float) :
  FP.ltb lo a = true -> FP.ltb a hi = true -> FP.is_finite a = true.
Proof.
  destruct a as [s| [|] | |s m e]; try reflexivity; intros H1 H2.
  - destruct lo as [?| [|] | |]; discriminate.
  - destruct hi as [?| [|] | |]; discriminate.
  - destruct lo as [?| [|] | |]; discriminate.
Qed.

Lemma ltb_not_nan_l (a b : spec_float) : FP.ltb a b = true -> FP.isnan a = false.
Proof. destruct a as [?| [|] | |]; try reflexivity. discriminate. Qed.

Lemma leb_not_gtb (a b : spec_float) : FP.leb a b = true -> FP.gtb a b = false.
Proof.
  unfold FP.leb, FP.gtb. destruct (FP.compare a b) as [[| |]|]; congruence.
Qed.

Lemma leb_not_ltb (a b : spec_float) : FP.leb a b = true -> FP.ltb b a = false.
Proof. rewrite <- gtb_ltb. apply leb_not_gtb. Qed.

Lemma min_not_nan (a b : spec_float) :
  FP.isnan a = false -> FP.isnan b = false -> FP.isnan (FP.min a b) = false.
Proof. unfold FP.min. destruct (FP.ltb b a); auto. Qed.

(** ** The comparison is the one of the Standard Library

    On two numbers of one format [FP.compare] is [SFcompare]; it is stated
    on the denoted numbers so that it also compares a [float] with a
    [double]. *)

Lemma two_pow_pos e : (0 < (2 # 1) ^ e)%Q.
Proof. apply Qpower_0_lt. reflexivity. Qed.

Lemma value_finite s m e :
  (FP.value (S754_finite s m e) ==
   inject_Z (if s then Z.neg m else Z.pos m) * (2 # 1) ^ e)%Q.
Proof.
  unfold FP.value. set (z := if s then Z.neg m else Z.pos m).
  destruct e as [|p|p].
  - simpl. ring.
  - rewrite inject_Z_mult. change (Z.pow_pos 2 p) with (2 ^ Z.pos p).
    rewrite Zpower_Qpower by lia. reflexivity.
  - rewrite Qmake_Qdiv. change (Pos.iter xO xH p) with (shift_pos p 1).
    rewrite shift_pos_correct, Z.mul_1_r.
    change (Zpower_pos 2 p) with (2 ^ Z.pos p).
    rewrite Zpower_Qpower by lia.
    change (Z.neg p) with (- Z.pos p). rewrite Qpower_opp. reflexivity.
Qed.

Lemma value_magnitude s m e :
  (FP.value (S754_finite s m e) ==
   if s then - FP.magnitude m e else FP.magnitude m e)%Q.
Proof.
  rewrite value_finite. unfold FP.magnitude. destruct s; [|reflexivity].
  change (Z.neg m) with (- Z.pos m). rewrite inject_Z_opp. ring.
Qed.

Lemma magnitude_pos m e : (0 < FP.magnitude m e)%Q.
Proof.
  unfold FP.magnitude.
  apply Qmult_lt_0_compat; [reflexivity | apply two_pow_pos].
Qed.

Lemma digits2_pos_bounds m :
  2 ^ (Z.pos (digits2_pos m) - 1) <= Z.pos m < 2 ^ Z.pos (digits2_pos m).
Proof.
  induction m as [m IH|m IH|]; cbn [digits2_pos].
  - rewrite Pos2Z.inj_succ.
    replace (Z.succ (Z.pos (digits2_pos m)) - 1)
      with (Z.succ (Z.pos (digits2_pos m) - 1)) by lia.
    rewrite !Z.pow_succ_r by lia. lia.
  - rewrite Pos2Z.inj_succ.
    replace (Z.succ (Z.pos (digits2_pos m)) - 1)
      with (Z.succ (Z.pos (digits2_pos m) - 1)) by lia.
    rewrite !Z.pow_succ_r by lia. lia.
  - simpl. lia.
Qed.

Lemma Qcompare_opp (x y : Q) : (- x ?= - y)%Q = (y ?= x)%Q.
Proof.
  destruct (Qcompare_spec y x) as [H|H|H].
  - apply Qeq_alt. rewrite H. reflexivity.
  - apply Qlt_alt. apply Qopp_lt_compat. exact H.
  - apply Qgt_alt. apply Qopp_lt_compat. exact H.
Qed.

Section Agreement.
Variables prec emax : Z.
Hypothesis prec_pos : 0 < prec.

(** Of two canonical mantissas the one with the smaller exponent denotes
    the smaller magnitude. *)
Lemma magnitude_lt m1 e1 m2 e2 :
  canonical_mantissa prec emax m1 e1 = true ->
  canonical_mantissa prec emax m2 e2 = true ->
  e1 < e2 -> (FP.magnitude m1 e1 < FP.magnitude m2 e2)%Q.
Proof.
  unfold canonical_mantissa, fexp. intros C1 C2 Hlt.
  apply Z.eqb_eq in C1, C2.
  pose proof (digits2_pos_bounds m1) as [_ B1].
  pose proof (digits2_pos_bounds m2) as [B2 _].
  assert (D1 : Z.pos (digits2_pos m1) <= prec) by lia.
  assert (D2 : Z.pos (digits2_pos m2) = prec) by lia.
  rewrite D2 in B2.
  assert (B1' : Z.pos m1 < 2 ^ prec).
  { eapply Z.lt_le_trans; [exact B1|]. apply Z.pow_le_mono_r; lia. }
  unfold FP.magnitude.
  apply Qlt_le_trans with (inject_Z (2 ^ prec) * (2 # 1) ^ e1)%Q.
  { apply Qmult_lt_compat_r; [apply two_pow_pos|]. rewrite <- Zlt_Qlt. exact B1'. }
  apply Qle_trans with (inject_Z (2 ^ (prec - 1)) * (2 # 1) ^ e2)%Q.
  2:{ apply Qmult_le_compat_r; [|apply Qlt_le_weak, two_pow_pos].
      rewrite <- Zle_Qle. exact B2. }
  rewrite !Zpower_Qpower by lia.
  rewrite <- !Qpower_plus by discriminate.
  apply Qpower_le_compat_l; [lia | discriminate].
Qed.

Lemma magnitude_same_exp m1 m2 e :
  (FP.magnitude m1 e ?= FP.magnitude m2 e)%Q = (m1 ?= m2)%positive.
Proof.
  unfold FP.magnitude.
  destruct (Pos.compare_spec m1 m2) as [H|H|H].
  - subst. apply Qeq_alt. reflexivity.
  - apply Qlt_alt. apply Qmult_lt_compat_r; [apply two_pow_pos|].
    rewrite <- Zlt_Qlt. lia.
  - apply Qgt_alt. apply Qmult_lt_compat_r; [apply two_pow_pos|].
    rewrite <- Zlt_Qlt. lia.
Qed.

Lemma magnitude_compare m1 e1 m2 e2 :
  canonical_mantissa prec emax m1 e1 = true ->
  canonical_mantissa prec emax m2 e2 = true ->
  (FP.magnitude m1 e1 ?= FP.magnitude m2 e2)%Q =
    match e1 ?= e2 with
    | Lt => Lt
    | Gt => Gt
    | Eq => Pos.compare_cont Eq m1 m2
    end.
Proof.
  intros C1 C2. destruct (Z.compare_spec e1 e2) as [H|H|H].
  - subst. apply magnitude_same_exp.
  - apply Qlt_alt, magnitude_lt; assumption.
  - apply Qgt_alt, magnitude_lt; assumption.
Qed.

Theorem compare_SFcompare (a b : spec_float) :
  valid_binary prec emax a = true -> valid_binary prec emax b = true ->
  FP.compare a b = SFcompare a b.
Proof.
  destruct a as [s1| s1 | |s1 m1 e1], b as [s2| s2 | |s2 m2 e2];
    intros Va Vb; try reflexivity; cbn [FP.compare SFcompare].
  - f_equal. rewrite (value_magnitude s2 m2 e2).
    pose proof (magnitude_pos m2 e2) as P.
    destruct s2.
    + apply Qgt_alt. change (FP.value (S754_zero s1)) with (- 0)%Q.
      apply Qopp_lt_compat. exact P.
    + apply Qlt_alt. exact P.
  - f_equal. rewrite (value_magnitude s1 m1 e1).
    pose proof (magnitude_pos m1 e1) as P.
    destruct s1.
    + apply Qlt_alt. change (FP.value (S754_zero s2)) with (- 0)%Q.
      apply Qopp_lt_compat. exact P.
    + apply Qgt_alt. exact P.
  - f_equal. rewrite (value_magnitude s1 m1 e1), (value_magnitude s2 m2 e2).
    cbn [valid_binary] in Va, Vb. unfold bounded in Va, Vb.
    apply andb_true_iff in Va, Vb. destruct Va as [C1 _], Vb as [C2 _].
    pose proof (magnitude_pos m1 e1) as P1.
    pose proof (magnitude_pos m2 e2) as P2.
    destruct s1, s2.
    + rewrite Qcompare_opp, (magnitude_compare m2 e2 m1 e1 C2 C1).
      change (Pos.compare_cont Eq m2 m1) with (m2 ?= m1)%positive.
      change (PosDef.Pos.compare_cont Eq m1 m2) with (m1 ?= m2)%positive.
      rewrite (Z.compare_antisym e1 e2), (Pos.compare_antisym m1 m2).
      destruct (e1 ?= e2); reflexivity.
    + apply Qlt_alt. apply Qlt_trans with 0%Q; [|exact P2].
      change 0%Q with (- 0)%Q. apply Qopp_lt_compat. exact P1.
    + apply Qgt_alt. apply Qlt_trans with 0%Q; [|exact P1].
      change 0%Q with (- 0)%Q. apply Qopp_lt_compat. exact P2.
    + apply magnitude_compare; assumption.
Qed.

End Agreement.

(** ** Rounding never invents a NaN *)

Section Round.
Variables prec emax : Z.

Lemma shr_1_nonneg mrs : 0 <= shr_m mrs -> 0 <= shr_m (shr_1 mrs).
Proof.
  destruct mrs as [m r s]; simpl.
  destruct m as [|[p|p|]|[p|p|]]; simpl; lia.
Qed.

Lemma iter_pos_shr_1_nonneg p : forall mrs,
  0 <= shr_m mrs -> 0 <= shr_m (iter_pos shr_1 p mrs).
Proof.
  induction p as [p IH|p IH|]; intros mrs H; simpl.
  - apply IH, IH, shr_1_nonneg, H.
  - apply IH, IH, H.
  - apply shr_1_nonneg, H.
Qed.

Lemma shr_fexp_nonneg m e l :
  0 <= m -> 0 <= shr_m (fst (shr_fexp prec emax m e l)).
Proof.
  intros H. unfold shr_fexp, shr.
  assert (H0 : 0 <= shr_m (shr_record_of_loc m l))
    by (destruct l as [|[| |]]; simpl; exact H).
  destruct (fexp prec emax (Zdigits2 m + e) - e); simpl; auto.
  apply iter_pos_shr_1_nonneg, H0.
Qed.

Lemma round_nearest_even_nonneg m l : 0 <= m -> 0 <= round_nearest_even m l.
Proof.
  intros H. destruct l as [|[| |]]; simpl; try lia.
  destruct (Z.even m); lia.
Qed.

Lemma binary_round_aux_not_nan sx mx ex lx :
  0 <= mx -> FP.isnan (binary_round_aux prec emax sx mx ex lx) = false.
Proof.
  intros H. unfold binary_round_aux.
  pose proof (shr_fexp_nonneg mx ex lx H) as H1.
  destruct (shr_fexp prec emax mx ex lx) as [mrs' e']. simpl in H1.
  pose proof (shr_fexp_nonneg _ e' loc_Exact
                (round_nearest_even_nonneg _ (loc_of_shr_record mrs') H1)) as H2.
  destruct (shr_fexp prec emax _ e' loc_Exact) as [mrs'' e'']. simpl in H2.
  destruct (shr_m mrs''); try lia; try reflexivity.
  destruct (e'' <=? emax - prec); reflexivity.
Qed.

Lemma binary_normalize_not_nan m e szero :
  FP.isnan (binary_normalize prec emax m e szero) = false.
Proof.
  destruct m; simpl; try reflexivity; unfold binary_round;
    destruct (shl_align _ _ _); apply binary_round_aux_not_nan; lia.
Qed.

(** Adding a finite number to a number never gives NaN. *)
Lemma SFadd_not_nan a b :
  FP.isnan a = false -> FP.is_finite b = true ->
  FP.isnan (SFadd prec emax a b) = false.
Proof.
  destruct a as [s1| [|] | |s1 m1 e1], b as [s2| [|] | |s2 m2 e2];
    intros Ha Hb; try discriminate; try reflexivity.
  - destruct s1, s2; reflexivity.
  - apply binary_normalize_not_nan.
Qed.

End Round.

(** ** The box filter *)

(** A point inside the box has finite [x] and [y] and a [z] below [max_z_]. *)
Lemma in_box_inv st pt :
  in_box st pt = true ->
  FP.is_finite (pt_x pt) = true /\ FP.is_finite (pt_y pt) = true /\
  FP.ltb (pt_z pt) (max_z_ st) = true.
Proof.
  unfold in_box. rewrite !andb_true_iff, !gtb_ltb.
  intros [[[[Hy1 Hy2] Hx1] Hx2] Hz]. repeat split; auto.
  - eapply between_finite; eassumption.
  - pose proof (between_finite _ _ _ Hy1 Hy2) as H.
    destruct (pt_y pt); simpl in *; congruence.
Qed.

(** A point with a NaN coordinate fails the box test: every comparison
    with NaN is false. *)
Lemma nan_not_in_box st pt : has_nan pt = true -> in_box st pt = false.
Proof.
  intros Hnan. unfold has_nan in Hnan. unfold in_box.
  destruct pt as [x y z]; cbn [pt_x pt_y pt_z] in *.
  destruct x as [?| ?| |? ? ?]; [| |rewrite !andb_false_r; reflexivity|];
    (destruct y as [?| ?| |? ? ?]; [| |reflexivity|]);
    (destruct z as [?| ?| |? ? ?]; [| |apply andb_false_r|]); discriminate.
Qed.

Lemma accumulate_point_in st a pt :
  no_nan a -> in_box st pt = true ->
  accumulate_point st a pt =
    {| acc_x := FP.add32 (acc_x a) (pt_x pt);
       acc_y := FP.add32 (acc_y a) (pt_y pt);
       acc_z := FP.min (acc_z a) (pt_z pt);
       acc_n := (acc_n a + 1) mod 2 ^ 32 |}.
Proof.
  intros (Hx & Hy & Hz) Hin. unfold accumulate_point.
  rewrite Hx, Hy, Hz, Hin. reflexivity.
Qed.

Lemma accumulate_point_out st a pt :
  in_box st pt = false -> accumulate_point st a pt = a.
Proof.
  intros Hin. unfold accumulate_point. rewrite Hin.
  destruct (_ && _); reflexivity.
Qed.

(** The guard of line 216 never fails: the accumulators stay free of NaN. *)
Lemma accumulate_point_no_nan st a pt :
  no_nan a -> no_nan (accumulate_point st a pt).
Proof.
  intros Ha. destruct (in_box st pt) eqn:Hin.
  - rewrite (accumulate_point_in st a pt Ha Hin).
    destruct Ha as (Hx & Hy & Hz).
    destruct (in_box_inv st pt Hin) as (Fx & Fy & Fz).
    repeat split; simpl.
    + apply SFadd_not_nan; assumption.
    + apply SFadd_not_nan; assumption.
    + apply min_not_nan; [assumption | eapply ltb_not_nan_l; eassumption].
  - rewrite (accumulate_point_out st a pt Hin). exact Ha.
Qed.

(** The loop folds the passing points, and counts them as long as the
    [unsigned int] does not wrap. *)
Lemma accumulate_from st pts : forall a,
  no_nan a -> 0 <= acc_n a -> acc_n a + Z.of_nat (length pts) < 2 ^ 32 ->
  fold_left (accumulate_point st) pts a =
    {| acc_x := fold_left FP.add32 (map pt_x (passing st pts)) (acc_x a);
       acc_y := fold_left FP.add32 (map pt_y (passing st pts)) (acc_y a);
       acc_z := fold_left FP.min (map pt_z (passing st pts)) (acc_z a);
       acc_n := acc_n a + Z.of_nat (length (passing st pts)) |}.
Proof.
  induction pts as [|pt pts IH]; intros a Ha Hn0 Hn.
  - simpl. rewrite Z.add_0_r. destruct a; reflexivity.
  - cbn [fold_left passing filter]. fold (passing st pts).
    cbn [length] in Hn. rewrite Nat2Z.inj_succ in Hn.
    pose proof (accumulate_point_no_nan st a pt Ha) as Ha'.
    destruct (in_box st pt) eqn:Hin.
    + rewrite (accumulate_point_in st a pt Ha Hin) in *.
      rewrite IH; cbn [acc_x acc_y acc_z acc_n] in *; auto.
      * cbn [map fold_left length]. rewrite Z.mod_small by lia.
        rewrite Nat2Z.inj_succ. f_equal. lia.
      * apply Z.mod_pos_bound. lia.
      * rewrite Z.mod_small by lia. lia.
    + rewrite (accumulate_point_out st a pt Hin) in *.
      apply IH; auto. lia.
Qed.

Lemma passing_length st pts : (length (passing st pts) <= length pts)%nat.
Proof. apply filter_length_le. Qed.

(** Folding [std::min] from [z] over numbers yields the minimum of
    [z :: l]. *)
Lemma fold_min_minimum l : forall z,
  FP.isnan z = false -> (forall v, In v l -> FP.isnan v = false) ->
  is_minimum (fold_left FP.min l z) (z :: l).
Proof.
  induction l as [|v l IH]; intros z Hz Hl.
  - split; [left; reflexivity|].
    intros w [<-|[]]. apply ltb_irrefl.
  - cbn [fold_left].
    assert (Hv : FP.isnan v = false) by (apply Hl; left; reflexivity).
    assert (Hl' : forall w, In w l -> FP.isnan w = false)
      by (intros w Hw; apply Hl; right; exact Hw).
    assert (Hmin : FP.min z v = if FP.ltb v z then v else z) by reflexivity.
    destruct (FP.ltb v z) eqn:E; rewrite Hmin.
    + destruct (IH v Hv Hl') as [Hin Hlow]. split.
      * right. exact Hin.
      * intros w [<-|Hw]; [|apply Hlow, Hw].
        destruct (FP.ltb z (fold_left FP.min l v)) eqn:E2; [|reflexivity].
        pose proof (ltb_trans _ _ _ E E2) as C.
        rewrite (Hlow v (or_introl eq_refl)) in C. discriminate.
    + destruct (IH z Hz Hl') as [Hin Hlow]. split.
      * destruct Hin as [Hin|Hin]; [left; exact Hin | right; right; exact Hin].
      * intros w [<-|[<-|Hw]].
        -- apply Hlow. left; reflexivity.
        -- destruct (FP.ltb v (fold_left FP.min l z)) eqn:E2; [|reflexivity].
           destruct (ltb_cotrans _ z _ Hz E2) as [C|C]; [congruence|].
           rewrite (Hlow z (or_introl eq_refl)) in C. discriminate.
        -- apply Hlow. right; exact Hw.
Qed.

(** The loop folds the passing points; the count is the wrapped increment
    iterated once per passing point. *)
Lemma accumulate_general st pts : forall a,
  no_nan a ->
  fold_left (accumulate_point st) pts a =
    {| acc_x := fold_left FP.add32 (map pt_x (passing st pts)) (acc_x a);
       acc_y := fold_left FP.add32 (map pt_y (passing st pts)) (acc_y a);
       acc_z := fold_left FP.min (map pt_z (passing st pts)) (acc_z a);
       acc_n := fold_left (fun n _ => (n + 1) mod 2 ^ 32) (passing st pts) (acc_n a) |}.
Proof.
  induction pts as [|pt pts IH]; intros a Ha.
  - destruct a; reflexivity.
  - cbn [fold_left passing filter]. fold (passing st pts).
    pose proof (accumulate_point_no_nan st a pt Ha) as Ha'.
    destruct (in_box st pt) eqn:Hin.
    + rewrite (accumulate_point_in st a pt Ha Hin) in *.
      rewrite IH by exact Ha'. reflexivity.
    + rewrite (accumulate_point_out st a pt Hin) in *.
      apply IH, Ha.
Qed.

Lemma no_nan_init : no_nan acc_init.
Proof. repeat split; reflexivity. Qed.

(** The wrapped count of a list, started below [2^32]. *)
Lemma count_wrap {A : Type} (l : list A) : forall n,
  0 <= n < 2 ^ 32 ->
  fold_left (fun n _ => (n + 1) mod 2 ^ 32) l n =
    (n + Z.of_nat (length l)) mod 2 ^ 32.
Proof.
  induction l as [|x l IH]; intros n Hn.
  - cbn [fold_left length]. rewrite Z.add_0_r, Z.mod_small by exact Hn. reflexivity.
  - cbn [fold_left length]. rewrite IH by (apply Z.mod_pos_bound; lia).
    rewrite Z.add_mod_idemp_l by lia. f_equal. lia.
Qed.

Lemma passing_repeat st pt n :
  in_box st pt = true -> passing st (repeat pt n) = repeat pt n.
Proof.
  intros H. unfold passing. induction n as [|n IH]; [reflexivity|].
  cbn [repeat filter]. rewrite H, IH. reflexivity.
Qed.

Lemma sum_repeat (q : Q) n :
  (fold_right Qplus 0 (repeat q n) == inject_Z (Z.of_nat n) * q)%Q.
Proof.
  induction n as [|n IH].
  - simpl. ring.
  - cbn [repeat fold_right]. rewrite IH, Nat2Z.inj_succ. unfold Z.succ.
    rewrite inject_Z_plus. ring.
Qed.

(** The mean of equal numbers is that number. *)
Lemma arithmetic_mean_repeat v n :
  (arithmetic_mean (repeat v (S n)) == FP.value v)%Q.
Proof.
  unfold arithmetic_mean. rewrite map_repeat, sum_repeat, repeat_length.
  field. intros H. unfold Qeq in H. cbn [Qnum Qden inject_Z] in H. lia.
Qed.

(** A frame of [n] copies of a passing point, [n] the number of values of
    the count: the count is back at 0. *)
Lemma wrapped_count st pt n :
  in_box st pt = true -> Z.of_nat n = 2 ^ 32 ->
  (4000 < length (passing st (repeat pt n)))%nat /\
  c_found (centroid st (repeat pt n)) = false.
Proof.
  intros Hin Hn. rewrite (passing_repeat st pt n Hin). split.
  - rewrite repeat_length. lia.
  - unfold centroid, accumulate.
    rewrite (accumulate_general st _ acc_init no_nan_init).
    cbn [acc_n acc_x acc_y acc_z acc_init].
    rewrite count_wrap by lia.
    rewrite (passing_repeat st pt n Hin), repeat_length, Hn, Z.add_0_l,
      Z.mod_same by lia.
    reflexivity.
Qed.

(** C5, as amended.  When at most 4000 points pass the box test the
    centroid is not found, whatever the points.  When more than 4000 and
    fewer than 2^32 pass it is found; its [x] and [y] are the binary32
    running sums of the passing points' [x] and [y], taken in frame order,
    divided in binary32 by the count; and its [z_min] is the minimum of
    [1e6] and the passing points' [z], which is the minimum [z] among the
    passing points when [max_z_ <= 1e6]. *)
Theorem centroid_of_passing_points st pts :
  ((length (passing st pts) <= 4000)%nat ->
     c_found (centroid st pts) = false) /\
  (Z.of_nat (length (passing st pts)) < 2 ^ 32 ->
   (4000 < length (passing st pts))%nat ->
     c_found (centroid st pts) = true /\
     c_x (centroid st pts) =
       FP.div32 (sum32 (map pt_x (passing st pts)))
         (FP.of_Z32 (Z.of_nat (length (passing st pts)))) /\
     c_y (centroid st pts) =
       FP.div32 (sum32 (map pt_y (passing st pts)))
         (FP.of_Z32 (Z.of_nat (length (passing st pts)))) /\
     is_minimum (c_z_min (centroid st pts))
       (FP.of_Z32 1000000 :: map pt_z (passing st pts)) /\
     (FP.leb (max_z_ st) (FP.of_Z32 1000000) = true ->
      is_minimum (c_z_min (centroid st pts)) (map pt_z (passing st pts)))).
Proof.
  unfold centroid, accumulate.
  rewrite (accumulate_general st _ acc_init no_nan_init).
  cbn [acc_init acc_x acc_y acc_z acc_n].
  rewrite count_wrap by lia. rewrite Z.add_0_l, Z.gtb_ltb.
  assert (Hz : forall q, In q (passing st pts) ->
                         FP.ltb (pt_z q) (max_z_ st) = true).
  { intros q Hq. apply filter_In in Hq. apply in_box_inv, Hq. }
  assert (Hnan : forall v, In v (map pt_z (passing st pts)) -> FP.isnan v = false).
  { intros v Hv. apply in_map_iff in Hv. destruct Hv as (q & <- & Hq).
    eapply ltb_not_nan_l, Hz, Hq. }
  split.
  - intros Hp. rewrite Z.mod_small by lia.
    replace (4000 <? _) with false by (symmetry; apply Z.ltb_ge; lia).
    reflexivity.
  - intros Hw Hp. rewrite Z.mod_small by lia.
    replace (4000 <? _) with true by (symmetry; apply Z.ltb_lt; lia).
    cbn [c_found c_x c_y c_z_min]. unfold sum32.
    split; [reflexivity | split; [reflexivity | split; [reflexivity|]]].
    split.
    + apply fold_min_minimum; [reflexivity | exact Hnan].
    + intros Hmax.
      destruct (passing st pts) as [|p ps]; [simpl in Hp; lia|].
      cbn [map fold_left].
      assert (H0 : FP.min (FP.of_Z32 1000000) (pt_z p) = pt_z p).
      { unfold FP.min.
        rewrite (ltb_leb_trans _ _ _ (Hz p (or_introl eq_refl)) Hmax).
        reflexivity. }
      rewrite H0. apply fold_min_minimum.
      * apply Hnan. left; reflexivity.
      * intros v Hv. apply Hnan. right; exact Hv.
Qed.

Lemma centroid_of_passing_points_witness :
  Z.of_nat (length (passing st_on (points frame_hold))) < 2 ^ 32 /\
  (4000 < length (passing st_on (points frame_hold)))%nat /\
  FP.leb (max_z_ st_on) (FP.of_Z32 1000000) = true /\
  c_found (centroid st_on (points frame_hold)) = true /\
  c_x (centroid st_on (points frame_hold)) =
    FP.div32 (sum32 (map pt_x (passing st_on (points frame_hold))))
      (FP.of_Z32 (Z.of_nat (length (passing st_on (points frame_hold))))) /\
  c_y (centroid st_on (points frame_hold)) =
    FP.div32 (sum32 (map pt_y (passing st_on (points frame_hold))))
      (FP.of_Z32 (Z.of_nat (length (passing st_on (points frame_hold))))) /\
  is_minimum (c_z_min (centroid st_on (points frame_hold)))
    (map pt_z (passing st_on (points frame_hold))).
Proof.
  assert (P : passing st_on (points frame_hold) = repeat (point3 5 (-30) 50) 4001)
    by (apply passing_repeat; vm_compute; reflexivity).
  assert (H1 : Z.of_nat (length (passing st_on (points frame_hold))) < 2 ^ 32)
    by (rewrite P, repeat_length; reflexivity).
  assert (H2 : (4000 < length (passing st_on (points frame_hold)))%nat)
    by (rewrite P, repeat_length; lia).
  assert (H3 : FP.leb (max_z_ st_on) (FP.of_Z32 1000000) = true)
    by (vm_compute; reflexivity).
  destruct (proj2 (centroid_of_passing_points st_on (points frame_hold)) H1 H2)
    as (F & X & Y & _ & Z).
  exact (conj H1 (conj H2 (conj H3 (conj F (conj X (conj Y (Z H3))))))).
Defined.

(** C5 as stated fails.  With 4001 passing points that all have
    [x = 0.05f], the centroid's [x] is [13422283 * 2^-28], above every one
    of them and not their arithmetic mean.  With [max_z = 1e7] and 4001
    passing points at [z = 2e6], the centroid is found with [z_min = 1e6],
    the [z] of no passing point.  With 2^32 passing points the count is
    back at 0 and no centroid is found. *)
Lemma centroid_claim_counterexample :
  ((4000 < length (passing st_on (points frame_hold)))%nat /\
   c_x (centroid st_on (points frame_hold)) = S754_finite false 13422283 (-28) /\
   ~ (FP.value (c_x (centroid st_on (points frame_hold))) ==
      arithmetic_mean (map pt_x (passing st_on (points frame_hold))))%Q) /\
  ((4000 < length (passing (reconfigure st_on far_box) (points frame_far)))%nat /\
   c_found (centroid (reconfigure st_on far_box) (points frame_far)) = true /\
   c_z_min (centroid (reconfigure st_on far_box) (points frame_far)) =
     FP.of_Z32 1000000 /\
   ~ is_minimum (c_z_min (centroid (reconfigure st_on far_box) (points frame_far)))
       (map pt_z (passing (reconfigure st_on far_box) (points frame_far)))) /\
  (Z.of_nat wrap_count = 2 ^ 32 /\
   (4000 < length (passing st_on (repeat (point3 5 (-30) 50) wrap_count)))%nat /\
   c_found (centroid st_on (repeat (point3 5 (-30) 50) wrap_count)) = false).
Proof.
  split; [|split].
  - assert (P : passing st_on (points frame_hold) = repeat (point3 5 (-30) 50) 4001)
      by (apply passing_repeat; vm_compute; reflexivity).
    assert (E : c_x (centroid st_on (points frame_hold)) =
                S754_finite false 13422283 (-28)) by (vm_compute; reflexivity).
    rewrite P, E. split; [rewrite repeat_length; lia|]. split; [reflexivity|].
    rewrite map_repeat. change 4001%nat with (S 4000).
    rewrite arithmetic_mean_repeat. vm_compute. discriminate.
  - assert (P : passing (reconfigure st_on far_box) (points frame_far) =
                repeat point_far 4001)
      by (apply passing_repeat; vm_compute; reflexivity).
    assert (E : c_z_min (centroid (reconfigure st_on far_box) (points frame_far)) =
                FP.of_Z32 1000000) by (vm_compute; reflexivity).
    rewrite P, E. split; [rewrite repeat_length; lia|].
    split; [vm_compute; reflexivity|]. split; [reflexivity|].
    intros [H _]. rewrite map_repeat in H. apply repeat_spec in H.
    vm_compute in H. discriminate.
  - assert (L : Z.of_nat wrap_count = 2 ^ 32) by (apply Z2Nat.id; lia).
    assert (B : in_box st_on (point3 5 (-30) 50) = true) by (vm_compute; reflexivity).
    exact (conj L (wrapped_count st_on (point3 5 (-30) 50) wrap_count B L)).
Qed.

(** C6.  A point with a NaN in any of its coordinates contributes
    nothing: processing it leaves the sums of [x] and [y], the running
    minimum of [z] and the count as they were, so the frame accumulates to
    what it accumulates to without the point. *)
Theorem nan_point_contributes_nothing st pre pt post :
  has_nan pt = true ->
  fold_left (accumulate_point st) (pre ++ [pt]) acc_init =
    fold_left (accumulate_point st) pre acc_init /\
  accumulate st (pre ++ pt :: post) = accumulate st (pre ++ post).
Proof.
  intros Hnan. pose proof (nan_not_in_box st pt Hnan) as Hout.
  unfold accumulate. rewrite !fold_left_app. cbn [fold_left].
  rewrite (accumulate_point_out st _ pt Hout). split; reflexivity.
Qed.

Lemma nan_point_contributes_nothing_witness :
  has_nan {| pt_x := FP.dec32 5 2; pt_y := FP.nan; pt_z := FP.dec32 50 2 |} = true /\
  fold_left (accumulate_point st_on)
    ([point3 5 (-30) 50] ++
     [{| pt_x := FP.dec32 5 2; pt_y := FP.nan; pt_z := FP.dec32 50 2 |}]) acc_init =
    fold_left (accumulate_point st_on) [point3 5 (-30) 50] acc_init /\
  accumulate st_on
    ([point3 5 (-30) 50] ++
     {| pt_x := FP.dec32 5 2; pt_y := FP.nan; pt_z := FP.dec32 50 2 |}
       :: [point3 5 (-30) 70]) =
    accumulate st_on ([point3 5 (-30) 50] ++ [point3 5 (-30) 70]).
Proof.
  assert (H : has_nan {| pt_x := FP.dec32 5 2; pt_y := FP.nan;
                         pt_z := FP.dec32 50 2 |} = true)
    by (vm_compute; reflexivity).
  exact (conj H (nan_point_contributes_nothing st_on [point3 5 (-30) 50] _
                   [point3 5 (-30) 70] H)).
Defined.

(** C7.  The box test negates [y]: a point passes iff [-y > min_y] and
    [-y < max_y] and [x < max_x] and [x > min_x] and [z < max_z], and the
    loop counts exactly the points that pass; with [min_y = 0.1] and
    [max_y = 0.5] a point with [y = -0.3] passes the test on [y] and a
    point with [y = +0.3] fails it. *)
Theorem box_test_inverts_y st a pt :
  no_nan a ->
  (in_box st pt = true <->
     FP.gtb (FP.neg (pt_y pt)) (min_y_ st) = true /\
     FP.ltb (FP.neg (pt_y pt)) (max_y_ st) = true /\
     FP.ltb (pt_x pt) (max_x_ st) = true /\
     FP.gtb (pt_x pt) (min_x_ st) = true /\
     FP.ltb (pt_z pt) (max_z_ st) = true) /\
  acc_n (accumulate_point st a pt) =
    (if in_box st pt then (acc_n a + 1) mod 2 ^ 32 else acc_n a) /\
  (FP.gtb (FP.neg (FP.dec32 (-3) 1)) (FP.dec 1 1) = true /\
   FP.ltb (FP.neg (FP.dec32 (-3) 1)) (FP.dec 5 1) = true) /\
  FP.gtb (FP.neg (FP.dec32 3 1)) (FP.dec 1 1) = false.
Proof.
  intros Ha. split; [|split; [|split; [split|]]].
  - unfold in_box. rewrite !andb_true_iff. tauto.
  - destruct (in_box st pt) eqn:E.
    + rewrite (accumulate_point_in st a pt Ha E). reflexivity.
    + rewrite (accumulate_point_out st a pt E). reflexivity.
  - vm_compute. reflexivity.
  - vm_compute. reflexivity.
  - vm_compute. reflexivity.
Qed.

Lemma box_test_inverts_y_witness :
  no_nan acc_init /\
  in_box st_on (point3 5 (-30) 50) = true /\
  in_box st_on (point3 5 30 50) = false /\
  acc_n (accumulate_point st_on acc_init (point3 5 (-30) 50)) = 1 /\
  acc_n (accumulate_point st_on acc_init (point3 5 30 50)) = 0.
Proof.
  assert (H : no_nan acc_init) by (repeat split; reflexivity).
  assert (P : in_box st_on (point3 5 (-30) 50) = true) by (vm_compute; reflexivity).
  assert (F : in_box st_on (point3 5 30 50) = false) by (vm_compute; reflexivity).
  refine (conj H (conj P (conj F (conj _ _)))).
  - rewrite (proj1 (proj2 (box_test_inverts_y st_on acc_init (point3 5 (-30) 50) H))).
    rewrite P. reflexivity.
  - rewrite (proj1 (proj2 (box_test_inverts_y st_on acc_init (point3 5 30 50) H))).
    rewrite F. reflexivity.
Defined.

(** ** The recovery loop *)

(** Without a request the loop body never runs, whatever the fuel. *)
Lemma recovery_loop_idle fuel ang limit st cmd count out :
  change_direction_ st = false ->
  recovery_loop fuel ang limit st cmd count out = Some (st, out).
Proof. intros H. destruct fuel; simpl; rewrite H; reflexivity. Qed.

(** With a request the loop publishes until [count] exceeds [limit]:
    [limit - count + 1] commands, and then clears the request. *)
Lemma recovery_loop_runs ang limit st : forall k fuel cmd count out,
  change_direction_ st = true ->
  limit - count = Z.of_nat k ->
  (S k <= fuel)%nat ->
  recovery_loop fuel ang limit st cmd count out =
    Some (set_change_direction st false, out ++ repeat (recovery_cmd ang) (S k)).
Proof.
  induction k as [|k IH]; intros fuel cmd count out Hcd Hk Hfuel;
    (destruct fuel as [|fuel]; [lia|]); cbn [recovery_loop];
    rewrite Hcd, Z.gtb_ltb.
  - replace (limit <? count + 1) with true by (symmetry; apply Z.ltb_lt; lia).
    rewrite recovery_loop_idle by reflexivity. reflexivity.
  - replace (limit <? count + 1) with false by (symmetry; apply Z.ltb_ge; lia).
    rewrite IH by (auto; lia).
    rewrite <- app_assoc. reflexivity.
Qed.

Ltac run_loop Hcd :=
  match goal with
  | |- context [recovery_loop ?f ?a ?lim ?st ?cmd 0 []] =>
      rewrite (recovery_loop_runs a lim st (Z.to_nat lim) f cmd 0 [] Hcd eq_refl)
        by (simpl; lia)
  end.

Ltac by_side st :=
  destruct (bumper_left_pressed_ st);
    [ | destruct (bumper_center_pressed_ st);
        [ | destruct (bumper_right_pressed_ st); [|discriminate] ] ].

(** ** Dispatch of a frame *)

Lemma recovery_side_none st :
  recovery_side st = None <-> any_pressed st = false.
Proof.
  unfold recovery_side, any_pressed.
  destruct (bumper_left_pressed_ st), (bumper_center_pressed_ st),
    (bumper_right_pressed_ st); simpl; split; congruence.
Qed.

(** A frame that finds a request and a pressed side, and is not a
    no-centroid frame of a disabled nodelet, runs the loop of the first
    pressed side. *)
Lemma cloudcb_recovers fuel st fr side :
  change_direction_ st = true ->
  recovery_side st = Some side ->
  regime st fr <> NoCentroid \/ enabled_ st = true ->
  (21 <= fuel)%nat ->
  exists ang,
    cloudcb fuel st fr =
      Some (set_change_direction st false,
            repeat (recovery_cmd ang) (S (tick_budget side))) /\
    (~ (side = CENTER /\ regime st fr = Hold) -> ang = table_angular_z side).
Proof.
  intros Hcd Hside Hreg Hfuel.
  unfold cloudcb, regime, recovery_side in *.
  destruct (c_found (centroid st (points fr)));
    [destruct (FP.gtb _ _) | destruct (enabled_ st); [|destruct Hreg; congruence]].
  all: by_side st.
  all: injection Hside as <-.
  all: eexists; split; [ run_loop Hcd; reflexivity | ].
  all: try (intros _; reflexivity).
  intros H. exfalso. apply H. split; reflexivity.
Qed.

(** A frame on which a side is pressed publishes nothing once the request
    is cleared, and leaves the fields as they are. *)
Lemma cloudcb_held fuel st fr :
  any_pressed st = true -> change_direction_ st = false ->
  cloudcb fuel st fr = Some (st, []).
Proof.
  intros Hp Hcd. unfold cloudcb, any_pressed in *.
  destruct (c_found _);
    [destruct (FP.gtb _ _) | destruct (enabled_ st); [|reflexivity]].
  all: by_side st.
  all: apply recovery_loop_idle, Hcd.
Qed.

(** Without a pressed side the frame takes the last branch of its regime. *)
Lemma cloudcb_free fuel st fr :
  any_pressed st = false ->
  cloudcb fuel st fr =
    match regime st fr with
    | Approach =>
        Some (st, [fst (approach_turn st (c_x (centroid st (points fr)))
                          (rnd fr) Twist_new false)])
    | Hold =>
        Some (st, [fst (hold_turn (c_x (centroid st (points fr)))
                          (rnd fr) Twist_new false)])
    | NoCentroid =>
        if enabled_ st then Some (st, [set_linear_x Twist_new (FP.dec 2 1)])
        else Some (st, [])
    end.
Proof.
  intros Hp. unfold cloudcb, regime, any_pressed in *.
  destruct (bumper_left_pressed_ st); [discriminate|].
  destruct (bumper_center_pressed_ st); [discriminate|].
  destruct (bumper_right_pressed_ st); [discriminate|].
  destruct (c_found _); [destruct (FP.gtb _ _) | reflexivity].
  - destruct (approach_turn _ _ _ _ _); reflexivity.
  - destruct (hold_turn _ _ _ _); reflexivity.
Qed.

(** A [Released] event touches the flag of its side only. *)
Lemma release_fields st side :
  change_direction_ (fst (bumperEventCB st (release side))) = change_direction_ st /\
  pressed (fst (bumperEventCB st (release side))) side = false /\
  (forall other, other <> side ->
     pressed (fst (bumperEventCB st (release side))) other = pressed st other).
Proof.
  destruct side; simpl; repeat split; try reflexivity;
    intros [| |] H; try reflexivity; congruence.
Qed.

(** ** Recovery *)

(** C1, as amended.  When a frame arrives while a RecoveryRequest is
    active and some side is pressed, and the frame has a centroid or the
    nodelet is enabled, that one call of [cloudcb] publishes recovery
    commands only, never a GoalController or Wanderer command: one more
    than the tick budget of the first pressed side (16 for Left and Right,
    21 for Center), all equal, with [linear_x = -0.2] and, except for
    Center in the Hold regime, the [angular_z] of the table (Left -0.4,
    Center -0.5, Right 0.4); the call then returns with the request
    cleared. *)
Theorem recovery_preempts_dispatch fuel st fr side :
  change_direction_ st = true ->
  recovery_side st = Some side ->
  regime st fr <> NoCentroid \/ enabled_ st = true ->
  (21 <= fuel)%nat ->
  exists ang,
    cloudcb fuel st fr =
      Some (set_change_direction st false,
            repeat (recovery_cmd ang) (S (tick_budget side))) /\
    (~ (side = CENTER /\ regime st fr = Hold) -> ang = table_angular_z side).
Proof. apply cloudcb_recovers. Qed.

Lemma recovery_preempts_dispatch_witness :
  change_direction_ (after st_on [press LEFT]) = true /\
  recovery_side (after st_on [press LEFT]) = Some LEFT /\
  enabled_ (after st_on [press LEFT]) = true /\
  (21 <= 30)%nat /\
  exists ang,
    cloudcb 30 (after st_on [press LEFT]) frame_empty =
      Some (set_change_direction (after st_on [press LEFT]) false,
            repeat (recovery_cmd ang) (S (tick_budget LEFT))) /\
    (~ (LEFT = CENTER /\ regime (after st_on [press LEFT]) frame_empty = Hold) ->
     ang = table_angular_z LEFT).
Proof.
  assert (H1 : change_direction_ (after st_on [press LEFT]) = true) by reflexivity.
  assert (H2 : recovery_side (after st_on [press LEFT]) = Some LEFT) by reflexivity.
  assert (H3 : enabled_ (after st_on [press LEFT]) = true) by reflexivity.
  assert (H4 : (21 <= 30)%nat) by lia.
  exact (conj H1 (conj H2 (conj H3 (conj H4
    (recovery_preempts_dispatch 30 (after st_on [press LEFT]) frame_empty LEFT
       H1 H2 (or_intror H3) H4))))).
Defined.

(** C1 as stated fails.  After a Left press, a single frame publishes 16
    recovery commands, not 15, and the next frame, with the side still
    held, publishes nothing rather than resuming; after a Left press and
    release the request is active and the frame publishes the Wanderer's
    crawl; with the nodelet disabled and no centroid the frame publishes
    nothing and keeps the request; in the Hold regime the Center loop
    publishes [angular_z = -0.4], not the table's [-0.5]. *)
Lemma recovery_claim_counterexample :
  run 30 st_on [MsgBumper (press LEFT); MsgCloud frame_empty; MsgCloud frame_empty] =
    Some (set_change_direction (after st_on [press LEFT]) false,
          [[]; repeat (recovery_cmd (table_angular_z LEFT)) 16; []]) /\
  (change_direction_ (after st_on [press LEFT; release LEFT]) = true /\
   cloudcb 30 (after st_on [press LEFT; release LEFT]) frame_empty =
     Some (after st_on [press LEFT; release LEFT],
           [{| linear_x := FP.dec 2 1; angular_z := FP.zero |}])) /\
  (change_direction_ (after st_off [press LEFT]) = true /\
   cloudcb 30 (after st_off [press LEFT]) frame_empty =
     Some (after st_off [press LEFT], [])) /\
  (regime (after st_on [press CENTER]) frame_hold = Hold /\
   cloudcb 30 (after st_on [press CENTER]) frame_hold =
     Some (set_change_direction (after st_on [press CENTER]) false,
           repeat (recovery_cmd (FP.neg (FP.dec 4 1))) 21) /\
   FP.neg (FP.dec 4 1) <> table_angular_z CENTER).
Proof.
  split; [vm_compute; reflexivity|].
  split; [split; vm_compute; reflexivity|].
  split; [split; vm_compute; reflexivity|].
  split; [vm_compute; reflexivity|].
  split; [vm_compute; reflexivity|].
  vm_compute. discriminate.
Qed.

(** C4, as amended.  A Released event never clears a RecoveryRequest: it
    clears the pressed flag of its side and nothing else.  The request then
    still leads to a full maneuver on the next frame that has a centroid or
    finds the nodelet enabled, provided some side is pressed when that
    frame arrives; and a maneuver that has started runs to its end, a
    Release behind it in the queue being handled only afterwards. *)
Theorem release_keeps_request st side :
  change_direction_ st = true ->
  change_direction_ (fst (bumperEventCB st (release side))) = true /\
  pressed (fst (bumperEventCB st (release side))) side = false /\
  (forall other, other <> side ->
     pressed (fst (bumperEventCB st (release side))) other = pressed st other) /\
  (forall fuel fr side',
     recovery_side (fst (bumperEventCB st (release side))) = Some side' ->
     regime (fst (bumperEventCB st (release side))) fr <> NoCentroid \/
       enabled_ (fst (bumperEventCB st (release side))) = true ->
     (21 <= fuel)%nat ->
     exists ang,
       cloudcb fuel (fst (bumperEventCB st (release side))) fr =
         Some (set_change_direction (fst (bumperEventCB st (release side))) false,
               repeat (recovery_cmd ang) (S (tick_budget side')))) /\
  (forall fuel fr side',
     recovery_side st = Some side' ->
     regime st fr <> NoCentroid \/ enabled_ st = true ->
     (21 <= fuel)%nat ->
     exists ang st'',
       run fuel st [MsgCloud fr; MsgBumper (release side)] =
         Some (st'', [repeat (recovery_cmd ang) (S (tick_budget side')); []]) /\
       change_direction_ st'' = false).
Proof.
  intros Hcd.
  destruct (release_fields st side) as (H1 & H3 & H4).
  split; [congruence|]. split; [exact H3|]. split; [exact H4|]. split.
  - intros fuel fr side' Hside Hreg Hfuel.
    destruct (cloudcb_recovers fuel _ fr side' (eq_trans H1 Hcd) Hside Hreg Hfuel)
      as (ang & H & _).
    exists ang. exact H.
  - intros fuel fr side' Hside Hreg Hfuel.
    destruct (cloudcb_recovers fuel st fr side' Hcd Hside Hreg Hfuel)
      as (ang & H & _).
    exists ang. eexists. cbn [run handle]. rewrite H. split; [reflexivity|].
    destruct side; reflexivity.
Qed.

Lemma release_keeps_request_witness :
  change_direction_ (after st_on [press LEFT; press RIGHT]) = true /\
  change_direction_
    (fst (bumperEventCB (after st_on [press LEFT; press RIGHT]) (release LEFT))) = true /\
  pressed
    (fst (bumperEventCB (after st_on [press LEFT; press RIGHT]) (release LEFT))) LEFT
    = false /\
  exists ang,
    cloudcb 30
      (fst (bumperEventCB (after st_on [press LEFT; press RIGHT]) (release LEFT)))
      frame_empty =
      Some (set_change_direction
              (fst (bumperEventCB (after st_on [press LEFT; press RIGHT])
                      (release LEFT))) false,
            repeat (recovery_cmd ang) (S (tick_budget RIGHT))).
Proof.
  assert (H : change_direction_ (after st_on [press LEFT; press RIGHT]) = true)
    by reflexivity.
  destruct (release_keeps_request (after st_on [press LEFT; press RIGHT]) LEFT H)
    as (H1 & H2 & _ & H4 & _).
  refine (conj H (conj H1 (conj H2 _))).
  apply (H4 30%nat frame_empty RIGHT); [reflexivity | right; reflexivity | lia].
Defined.

(** C4 as stated fails.  After a Left press and release the request is
    active, yet frame after frame publishes the Wanderer's crawl and no
    recovery command: the Release has stalled the pending recovery. *)
Lemma release_stalls_pending_recovery :
  change_direction_ (after st_on [press LEFT; release LEFT]) = true /\
  run 30 st_on
    [MsgBumper (press LEFT); MsgBumper (release LEFT);
     MsgCloud frame_empty; MsgCloud frame_empty; MsgCloud frame_empty] =
    Some (after st_on [press LEFT; release LEFT],
          [[]; [];
           [{| linear_x := FP.dec 2 1; angular_z := FP.zero |}];
           [{| linear_x := FP.dec 2 1; angular_z := FP.zero |}];
           [{| linear_x := FP.dec 2 1; angular_z := FP.zero |}]]).
Proof. split; vm_compute; reflexivity. Qed.

(** C10.  On a frame where some side is pressed and no RecoveryRequest is
    active, [cloudcb] publishes no command at all, in the found-centroid
    paths and in the no-centroid path alike, and leaves the fields as they
    are. *)
Theorem held_bumper_silences_frame fuel st fr :
  any_pressed st = true -> change_direction_ st = false ->
  cloudcb fuel st fr = Some (st, []).
Proof. apply cloudcb_held. Qed.

Lemma held_bumper_silences_frame_witness :
  any_pressed (set_change_direction (after st_on [press CENTER]) false) = true /\
  change_direction_ (set_change_direction (after st_on [press CENTER]) false) = false /\
  cloudcb 0 (set_change_direction (after st_on [press CENTER]) false) frame_hold =
    Some (set_change_direction (after st_on [press CENTER]) false, []) /\
  cloudcb 0 (set_change_direction (after st_on [press CENTER]) false) frame_empty =
    Some (set_change_direction (after st_on [press CENTER]) false, []).
Proof.
  assert (H1 : any_pressed (set_change_direction (after st_on [press CENTER]) false)
               = true) by reflexivity.
  assert (H2 : change_direction_
                 (set_change_direction (after st_on [press CENTER]) false) = false)
    by reflexivity.
  exact (conj H1 (conj H2 (conj
    (held_bumper_silences_frame 0 _ frame_hold H1 H2)
    (held_bumper_silences_frame 0 _ frame_empty H1 H2)))).
Defined.

(** ** The enabled flag *)

(** C2, as amended.  On a frame processed while the nodelet is disabled
    and no centroid is found, [cloudcb] publishes nothing at all: neither
    the Wanderer's crawl nor a recovery command, whatever the bumpers, and
    the fields (a pending request included) stay as they are.  On a frame
    with a centroid, a pending recovery of a pressed side runs although the
    nodelet is disabled, and the frame publishes its recovery commands
    only. *)
Theorem disabled_frames fuel st fr :
  enabled_ st = false ->
  (regime st fr = NoCentroid -> cloudcb fuel st fr = Some (st, [])) /\
  (forall side,
     regime st fr <> NoCentroid -> change_direction_ st = true ->
     recovery_side st = Some side -> (21 <= fuel)%nat ->
     exists ang,
       cloudcb fuel st fr =
         Some (set_change_direction st false,
               repeat (recovery_cmd ang) (S (tick_budget side)))).
Proof.
  intros Hen. split.
  - unfold regime, cloudcb. destruct (c_found _).
    + destruct (FP.gtb _ _); discriminate.
    + rewrite Hen. reflexivity.
  - intros side Hreg Hcd Hside Hfuel.
    destruct (cloudcb_recovers fuel st fr side Hcd Hside (or_introl Hreg) Hfuel)
      as (ang & H & _).
    exists ang. exact H.
Qed.

Lemma disabled_frames_witness :
  enabled_ (after st_off [press LEFT]) = false /\
  regime (after st_off [press LEFT]) frame_empty = NoCentroid /\
  cloudcb 30 (after st_off [press LEFT]) frame_empty =
    Some (after st_off [press LEFT], []).
Proof.
  assert (H : enabled_ (after st_off [press LEFT]) = false) by reflexivity.
  assert (R : regime (after st_off [press LEFT]) frame_empty = NoCentroid)
    by reflexivity.
  exact (conj H (conj R
    (proj1 (disabled_frames 30 (after st_off [press LEFT]) frame_empty H) R))).
Defined.

(** C2 as stated fails.  Disabled, with a centroid beyond the goal
    distance and no bumper pressed, the frame publishes the Approach
    command with [linear_x = 0.2], a forward motion; disabled, with no
    centroid, a pressed Left side and an active request, the frame
    publishes nothing: the recovery does not override. *)
Lemma disabled_claim_counterexample :
  (enabled_ st_off = false /\
   regime st_off frame_approach = Approach /\
   cloudcb 30 st_off frame_approach =
     Some (st_off,
           [{| linear_x := FP.dec 2 1; angular_z := FP.neg (FP.dec 3 1) |}]) /\
   FP.gtb (FP.dec 2 1) FP.zero = true) /\
  (enabled_ (after st_off [press LEFT]) = false /\
   bumper_left_pressed_ (after st_off [press LEFT]) = true /\
   change_direction_ (after st_off [press LEFT]) = true /\
   cloudcb 30 (after st_off [press LEFT]) frame_empty =
     Some (after st_off [press LEFT], [])).
Proof.
  split; [split; [reflexivity|]|].
  - split; [vm_compute; reflexivity|]. split; vm_compute; reflexivity.
  - repeat split; vm_compute; reflexivity.
Qed.

(** ** The turn direction *)

(** C3, as amended.  On a frame with a centroid whose [x] lies in
    [[-0.2, 0.2]], with no side pressed and with no decisive turn on any
    earlier frame, the turn is the default one, which is the left one:
    [angular_z = -0.3], with [linear_x = 0] in the Hold regime and
    [linear_x = 0.2] in the Approach regime, where [angular_z] is left at
    0 while a RecoveryRequest is pending. *)
Theorem first_indecisive_turn_is_left fuel st0 ms st outs fr :
  run fuel st0 ms = Some (st, outs) ->
  no_decisive_turn fuel st0 ms ->
  any_pressed st = false ->
  regime st fr <> NoCentroid ->
  FP.leb (FP.neg (FP.dec 2 1)) (c_x (centroid st (points fr))) = true ->
  FP.leb (c_x (centroid st (points fr))) (FP.dec 2 1) = true ->
  cloudcb fuel st fr =
    Some (st,
          [match regime st fr with
           | Hold =>
               {| linear_x := FP.of_Z64 0; angular_z := FP.neg (FP.dec 3 1) |}
           | _ =>
               {| linear_x := FP.dec 2 1;
                  angular_z := if change_direction_ st then FP.zero
                               else FP.neg (FP.dec 3 1) |}
           end]).
Proof.
  intros _ _ Hp Hreg Hlo Hhi.
  rewrite (cloudcb_free fuel st fr Hp).
  destruct (regime st fr); [| |congruence].
  - unfold approach_turn.
    rewrite (leb_not_gtb _ _ Hhi), (leb_not_ltb _ _ Hlo).
    destruct (change_direction_ st); reflexivity.
  - unfold hold_turn.
    rewrite (leb_not_gtb _ _ Hhi), (leb_not_ltb _ _ Hlo). reflexivity.
Qed.

Lemma first_indecisive_turn_is_left_witness :
  run 30 st_on
    [MsgBumper (press LEFT); MsgCloud frame_empty; MsgBumper (release LEFT)] =
    Some (st_on, [[]; repeat (recovery_cmd (table_angular_z LEFT)) 16; []]) /\
  no_decisive_turn 30 st_on
    [MsgBumper (press LEFT); MsgCloud frame_empty; MsgBumper (release LEFT)] /\
  any_pressed st_on = false /\
  regime st_on frame_hold <> NoCentroid /\
  FP.leb (FP.neg (FP.dec 2 1)) (c_x (centroid st_on (points frame_hold))) = true /\
  FP.leb (c_x (centroid st_on (points frame_hold))) (FP.dec 2 1) = true /\
  cloudcb 30 st_on frame_hold =
    Some (st_on,
          [match regime st_on frame_hold with
           | Hold =>
               {| linear_x := FP.of_Z64 0; angular_z := FP.neg (FP.dec 3 1) |}
           | _ =>
               {| linear_x := FP.dec 2 1;
                  angular_z := if change_direction_ st_on then FP.zero
                               else FP.neg (FP.dec 3 1) |}
           end]).
Proof.
  assert (H1 : run 30 st_on
                 [MsgBumper (press LEFT); MsgCloud frame_empty;
                  MsgBumper (release LEFT)] =
               Some (st_on, [[]; repeat (recovery_cmd (table_angular_z LEFT)) 16; []]))
    by (vm_compute; reflexivity).
  assert (H2 : no_decisive_turn 30 st_on
                 [MsgBumper (press LEFT); MsgCloud frame_empty;
                  MsgBumper (release LEFT)])
    by (vm_compute; repeat split; reflexivity).
  assert (H3 : any_pressed st_on = false) by reflexivity.
  assert (H4 : regime st_on frame_hold <> NoCentroid)
    by (vm_compute; discriminate).
  assert (H5 : FP.leb (FP.neg (FP.dec 2 1))
                 (c_x (centroid st_on (points frame_hold))) = true)
    by (vm_compute; reflexivity).
  assert (H6 : FP.leb (c_x (centroid st_on (points frame_hold))) (FP.dec 2 1) = true)
    by (vm_compute; reflexivity).
  exact (conj H1 (conj H2 (conj H3 (conj H4 (conj H5 (conj H6
    (first_indecisive_turn_is_left 30 st_on _ st_on _ frame_hold
       H1 H2 H3 H4 H5 H6))))))).
Defined.

(** C3 as stated fails.  On the first frame of all, with the centroid's
    [x] in the middle band, the turn is [angular_z = -0.3], not the [+0.3]
    of a default to the right.  And the direction does not persist: with
    the box widened, a frame whose centroid lies to the right makes a
    decisive right turn ([angular_z = 0.3]), and the next frame, with [x]
    in the middle band, still turns with [-0.3]. *)
Lemma wander_direction_counterexample :
  cloudcb 0 st_on frame_hold =
    Some (st_on, [{| linear_x := FP.zero; angular_z := FP.neg (FP.dec 3 1) |}]) /\
  decisive (reconfigure st_on wide_box) frame_right = true /\
  FP.gtb (c_x (centroid (reconfigure st_on wide_box) (points frame_right)))
    (FP.dec 2 1) = true /\
  run 0 (reconfigure st_on wide_box) [MsgCloud frame_right; MsgCloud frame_hold] =
    Some (reconfigure st_on wide_box,
          [[{| linear_x := FP.zero; angular_z := FP.dec 3 1 |}];
           [{| linear_x := FP.zero; angular_z := FP.neg (FP.dec 3 1) |}]]).
Proof. repeat split; vm_compute; reflexivity. Qed.

(** ** Bumper events *)

(** C8.  Recovery requests are edge-triggered.  From a state where a side
    is released, a Pressed event for it sets its flag, raises the request
    and prints one line; a Pressed event for a side that is already
    pressed changes nothing and prints nothing.  So two Pressed events in a
    row raise one request, and Pressed, Released, Pressed raise two. *)
Theorem bumper_edge_triggered st side :
  pressed st side = false ->
  pressed (fst (bumperEventCB st (press side))) side = true /\
  change_direction_ (fst (bumperEventCB st (press side))) = true /\
  length (snd (bumperEventCB st (press side))) = 1%nat /\
  (forall st', pressed st' side = true ->
     bumperEventCB st' (press side) = (st', [])) /\
  requests_raised st [press side; press side] = 1%nat /\
  requests_raised st [press side; release side; press side] = 2%nat.
Proof.
  intros H.
  set (st1 := fst (bumperEventCB st (press side))).
  assert (E : bumperEventCB st (press side) =
              (st1, snd (bumperEventCB st (press side))))
    by (unfold st1; destruct (bumperEventCB st (press side)); reflexivity).
  assert (P1 : pressed st1 side = true)
    by (unfold st1, bumperEventCB; destruct side; cbn in H |- *; rewrite H;
        reflexivity).
  assert (Idem : forall st', pressed st' side = true ->
                             bumperEventCB st' (press side) = (st', []))
    by (intros st' H'; unfold bumperEventCB; destruct side; cbn in H' |- *;
        rewrite H'; reflexivity).
  assert (L : length (snd (bumperEventCB st (press side))) = 1%nat)
    by (unfold bumperEventCB; destruct side; cbn in H |- *; rewrite H;
        reflexivity).
  repeat split; auto.
  - unfold st1, bumperEventCB; destruct side; cbn in H |- *; rewrite H;
      reflexivity.
  - cbn [requests_raised]. rewrite E, (Idem st1 P1), L. reflexivity.
  - cbn [requests_raised]. rewrite E, L.
    destruct (bumperEventCB st1 (release side)) as [st2 log2] eqn:E2.
    assert (L2 : log2 = []) by (destruct side; cbn in E2; congruence).
    assert (P2 : pressed st2 side = false)
      by (destruct side; cbn in E2; inversion E2; reflexivity).
    destruct (bumperEventCB st2 (press side)) as [st3 log3] eqn:E3.
    assert (L3 : length log3 = 1%nat).
    { unfold bumperEventCB in E3; destruct side; cbn in P2, E3; rewrite P2 in E3;
        inversion E3; reflexivity. }
    rewrite L2, L3. reflexivity.
Qed.

Lemma bumper_edge_triggered_witness :
  pressed st_on LEFT = false /\
  change_direction_ (fst (bumperEventCB st_on (press LEFT))) = true /\
  requests_raised st_on [press LEFT; press LEFT] = 1%nat /\
  requests_raised st_on [press LEFT; release LEFT; press LEFT] = 2%nat.
Proof.
  assert (H : pressed st_on LEFT = false) by reflexivity.
  destruct (bumper_edge_triggered st_on LEFT H) as (_ & H2 & _ & _ & H5 & H6).
  exact (conj H (conj H2 (conj H5 H6))).
Defined.

(** ** The mode service *)



(** * Further properties *)

(** ** What a frame can do *)

Lemma recovery_step_cmd cmd ang :
  set_linear_x (set_angular_z cmd ang) (FP.neg (FP.dec 2 1)) = recovery_cmd ang.
Proof. reflexivity. Qed.

(** Whatever the fuel, a loop that returns has cleared the request, has
    written no other field and has published recovery commands only. *)
Lemma recovery_loop_result ang limit : forall fuel st cmd count out st' out',
  recovery_loop fuel ang limit st cmd count out = Some (st', out') ->
  (st' = st \/
   (change_direction_ st = true /\ st' = set_change_direction st false)) /\
  change_direction_ st' = false /\
  exists k, out' = out ++ repeat (recovery_cmd ang) k.
Proof.
  induction fuel as [|fuel IH]; intros st cmd count out st' out' H;
    cbn [recovery_loop] in H; destruct (change_direction_ st) eqn:Hcd.
  - discriminate.
  - injection H as <- <-. repeat split; auto. exists 0%nat. simpl.
    rewrite app_nil_r. reflexivity.
  - rewrite recovery_step_cmd in H. destruct (count + 1 >? limit).
    + rewrite recovery_loop_idle in H by reflexivity. injection H as <- <-.
      repeat split; auto. exists 1%nat. reflexivity.
    + apply IH in H. destruct H as (Hst & Hcd' & k & ->).
      split; [|split; [exact Hcd'|]].
      * destruct Hst as [->|[_ ->]]; auto.
      * exists (S k). rewrite <- app_assoc. reflexivity.
  - injection H as <- <-. repeat split; auto. exists 0%nat. simpl.
    rewrite app_nil_r. reflexivity.
Qed.

(** With a side pressed a frame publishes nothing (disabled, no centroid)
    or runs one of the loops. *)
Lemma cloudcb_pressed fuel st fr :
  any_pressed st = true ->
  cloudcb fuel st fr = Some (st, []) \/
  exists ang limit,
    In ang [FP.neg (FP.dec 4 1); FP.neg (FP.dec 5 1); FP.dec 4 1] /\
    (limit = 15 \/ limit = 20) /\
    cloudcb fuel st fr = recovery_loop fuel ang limit st Twist_new 0 [].
Proof.
  intros Hp. unfold cloudcb, any_pressed in *.
  destruct (c_found _);
    [destruct (FP.gtb _ _) | destruct (enabled_ st); [|left; reflexivity]].
  all: right; by_side st.
  all: eexists; eexists; split; [|split; [|reflexivity]]; simpl; auto.
Qed.

(** ** The turn selection *)

Lemma rem_small (a b : Z) : 0 < b -> - b < Z.rem a b < b.
Proof.
  intros Hb. pose proof (Z.rem_bound_abs a b ltac:(lia)). lia.
Qed.

Ltac each_below_7 k Hk :=
  assert (k = -6 \/ k = -5 \/ k = -4 \/ k = -3 \/ k = -2 \/ k = -1 \/ k = 0 \/
          k = 1 \/ k = 2 \/ k = 3 \/ k = 4 \/ k = 5 \/ k = 6) as Hcases by lia;
  clear Hk; repeat (destruct Hcases as [->|Hcases]); [ .. | subst k].

Ltac each_below_10 k Hk :=
  assert (k = -9 \/ k = -8 \/ k = -7 \/ k = -6 \/ k = -5 \/ k = -4 \/ k = -3 \/
          k = -2 \/ k = -1 \/ k = 0 \/ k = 1 \/ k = 2 \/ k = 3 \/ k = 4 \/
          k = 5 \/ k = 6 \/ k = 7 \/ k = 8 \/ k = 9) as Hcases by lia;
  clear Hk; repeat (destruct Hcases as [->|Hcases]); [ .. | subst k].

Ltac velocity_ok_now :=
  vm_compute;
  split;
    [ first [ left; reflexivity | right; left; reflexivity
            | right; right; reflexivity ]
    | split; reflexivity ].

Lemma approach_turn_ok st x rnd :
  velocity_ok (fst (approach_turn st x rnd Twist_new false)).
Proof.
  unfold approach_turn.
  pose proof (rem_small rnd 7 eq_refl) as Hk. revert Hk.
  generalize (Z.rem rnd 7) as k. intros k Hk.
  destruct (FP.gtb x (FP.dec 2 1)); [|destruct (FP.ltb x (FP.neg (FP.dec 2 1)))].
  - each_below_7 k Hk; velocity_ok_now.
  - each_below_7 k Hk; velocity_ok_now.
  - clear Hk k. destruct (change_direction_ st); velocity_ok_now.
Qed.

Lemma hold_turn_ok x rnd :
  velocity_ok (fst (hold_turn x rnd Twist_new false)).
Proof.
  unfold hold_turn.
  pose proof (rem_small rnd MAX eq_refl) as Hk. revert Hk.
  generalize (Z.rem rnd MAX) as k. intros k Hk. unfold MAX in Hk.
  destruct (FP.gtb x (FP.dec 2 1)); [|destruct (FP.ltb x (FP.neg (FP.dec 2 1)))].
  - each_below_10 k Hk; velocity_ok_now.
  - each_below_10 k Hk; velocity_ok_now.
  - velocity_ok_now.
Qed.

(** A decisive turn goes toward the side of the centroid. *)
Lemma approach_turn_right st x rnd :
  FP.gtb x (FP.dec 2 1) = true ->
  FP.leb (FP.dec 3 1) (angular_z (fst (approach_turn st x rnd Twist_new false))) = true /\
  FP.leb (angular_z (fst (approach_turn st x rnd Twist_new false))) (FP.dec 7 1) = true.
Proof.
  intros Hx. unfold approach_turn. rewrite Hx.
  pose proof (rem_small rnd 7 eq_refl) as Hk. revert Hk.
  generalize (Z.rem rnd 7) as k. intros k Hk.
  each_below_7 k Hk; vm_compute; split; reflexivity.
Qed.

Lemma approach_turn_left st x rnd :
  FP.gtb x (FP.dec 2 1) = false -> FP.ltb x (FP.neg (FP.dec 2 1)) = true ->
  FP.leb (FP.neg (FP.dec 7 1))
    (angular_z (fst (approach_turn st x rnd Twist_new false))) = true /\
  FP.leb (angular_z (fst (approach_turn st x rnd Twist_new false)))
    (FP.neg (FP.dec 2 1)) = true.
Proof.
  intros Hx Hx'. unfold approach_turn. rewrite Hx, Hx'.
  pose proof (rem_small rnd 7 eq_refl) as Hk. revert Hk.
  generalize (Z.rem rnd 7) as k. intros k Hk.
  each_below_7 k Hk; vm_compute; split; reflexivity.
Qed.

Lemma hold_turn_right x rnd :
  FP.gtb x (FP.dec 2 1) = true ->
  FP.leb (FP.dec 3 1) (angular_z (fst (hold_turn x rnd Twist_new false))) = true /\
  FP.leb (angular_z (fst (hold_turn x rnd Twist_new false))) (FP.dec 7 1) = true.
Proof.
  intros Hx. unfold hold_turn. rewrite Hx.
  pose proof (rem_small rnd MAX eq_refl) as Hk. revert Hk.
  generalize (Z.rem rnd MAX) as k. intros k Hk. unfold MAX in Hk.
  each_below_10 k Hk; vm_compute; split; reflexivity.
Qed.

Lemma hold_turn_left x rnd :
  FP.gtb x (FP.dec 2 1) = false -> FP.ltb x (FP.neg (FP.dec 2 1)) = true ->
  FP.leb (FP.neg (FP.dec 7 1))
    (angular_z (fst (hold_turn x rnd Twist_new false))) = true /\
  FP.leb (angular_z (fst (hold_turn x rnd Twist_new false)))
    (FP.neg (FP.dec 2 1)) = true.
Proof.
  intros Hx Hx'. unfold hold_turn. rewrite Hx, Hx'.
  pose proof (rem_small rnd MAX eq_refl) as Hk. revert Hk.
  generalize (Z.rem rnd MAX) as k. intros k Hk. unfold MAX in Hk.
  each_below_10 k Hk; vm_compute; split; reflexivity.
Qed.

(** Left of [-0.2] is not right of [0.2]. *)
Lemma left_not_right x :
  FP.ltb x (FP.neg (FP.dec 2 1)) = true -> FP.gtb x (FP.dec 2 1) = false.
Proof.
  intros H. rewrite gtb_ltb.
  destruct (FP.ltb (FP.dec 2 1) x) eqn:E; [|reflexivity].
  pose proof (ltb_trans _ _ _ E H) as C. vm_compute in C. discriminate.
Qed.

(** ** The box filter, whatever the count does *)

Lemma passing_idem st pts : passing st (passing st pts) = passing st pts.
Proof.
  unfold passing. induction pts as [|pt pts IH]; [reflexivity|].
  cbn [filter]. destruct (in_box st pt) eqn:E; [|exact IH].
  cbn [filter]. rewrite E, IH. reflexivity.
Qed.

Lemma passing_in st pts pt : In pt (passing st pts) -> in_box st pt = true.
Proof. intros H. apply filter_In in H. apply H. Qed.

Lemma passing_perm st pts pts' :
  Permutation pts pts' -> Permutation (passing st pts) (passing st pts').
Proof.
  unfold passing. induction 1 as [|x l l' _ IH|x y l|l l' l'' _ IH1 _ IH2].
  - constructor.
  - cbn [filter]. destruct (in_box st x); [constructor|]; exact IH.
  - cbn [filter]. destruct (in_box st x), (in_box st y);
      try apply Permutation_refl. constructor.
  - eapply Permutation_trans; eassumption.
Qed.

(** The count depends on the number of passing points only. *)
Lemma count_by_length {A B : Type} (l : list A) (l' : list B) : forall n,
  length l = length l' ->
  fold_left (fun n _ => (n + 1) mod 2 ^ 32) l n =
  fold_left (fun n _ => (n + 1) mod 2 ^ 32) l' n.
Proof.
  revert l'. induction l as [|x l IH]; intros [|y l'] n H; try discriminate.
  - reflexivity.
  - cbn [fold_left]. apply IH. simpl in H. lia.
Qed.

(** A box whose bounds on [x] or on [y] are not in order lets no point
    through. *)
Lemma unordered_box_empty st pt :
  FP.ltb (min_x_ st) (max_x_ st) = false \/
  FP.ltb (min_y_ st) (max_y_ st) = false ->
  in_box st pt = false.
Proof.
  intros H. destruct (in_box st pt) eqn:E; [|reflexivity]. exfalso.
  unfold in_box in E. rewrite !andb_true_iff, !gtb_ltb in E.
  destruct E as [[[[Hy1 Hy2] Hx1] Hx2] _].
  pose proof (ltb_trans _ _ _ Hy1 Hy2). pose proof (ltb_trans _ _ _ Hx2 Hx1).
  destruct H; congruence.
Qed.

Lemma passing_nil st pts :
  (forall pt, in_box st pt = false) -> passing st pts = [].
Proof.
  intros H. unfold passing. induction pts as [|pt pts IH]; [reflexivity|].
  cbn [filter]. rewrite H. exact IH.
Qed.

(** X6.  A box whose bounds are not in order ([min_x < max_x] or
    [min_y < max_y] fails, a NaN bound included) is not rejected: no point
    passes it, the accumulators keep their initial values and no frame
    yields a centroid. *)
Theorem unordered_box_finds_nothing st fr :
  FP.ltb (min_x_ st) (max_x_ st) = false \/
  FP.ltb (min_y_ st) (max_y_ st) = false ->
  passing st (points fr) = [] /\
  accumulate st (points fr) = acc_init /\
  regime st fr = NoCentroid.
Proof.
  intros H.
  assert (P : passing st (points fr) = [])
    by (apply passing_nil; intros pt; apply unordered_box_empty, H).
  assert (A : accumulate st (points fr) = acc_init).
  { unfold accumulate. rewrite (accumulate_general st _ acc_init no_nan_init), P.
    reflexivity. }
  repeat split; auto. unfold regime, centroid. rewrite A. reflexivity.
Qed.

Lemma unordered_box_finds_nothing_witness :
  FP.ltb (min_x_ (reconfigure st_on swapped_box))
    (max_x_ (reconfigure st_on swapped_box)) = false /\
  passing (reconfigure st_on swapped_box) (points frame_hold) = [] /\
  accumulate (reconfigure st_on swapped_box) (points frame_hold) = acc_init /\
  regime (reconfigure st_on swapped_box) frame_hold = NoCentroid.
Proof.
  assert (H : FP.ltb (min_x_ (reconfigure st_on swapped_box))
                (max_x_ (reconfigure st_on swapped_box)) = false)
    by (vm_compute; reflexivity).
  exact (conj H (unordered_box_finds_nothing (reconfigure st_on swapped_box)
                   frame_hold (or_introl H))).
Defined.

(** X7.  The centroid depends on the passing points only: dropping every
    point that fails the box test from a frame changes nothing of it, not
    the sums, the minimum, the count or the verdict. *)
Theorem centroid_of_passing_only st pts :
  centroid st pts = centroid st (passing st pts).
Proof.
  unfold centroid, accumulate.
  rewrite !(accumulate_general st _ acc_init no_nan_init), passing_idem.
  reflexivity.
Qed.

(** X8.  Whether a centroid is found, and the count, do not depend on the
    order of the points of the frame. *)
Theorem detection_ignores_point_order st pts pts' :
  Permutation pts pts' ->
  c_found (centroid st pts) = c_found (centroid st pts') /\
  c_count (centroid st pts) = c_count (centroid st pts').
Proof.
  intros H. apply (passing_perm st) in H. apply Permutation_length in H.
  unfold centroid, accumulate.
  rewrite !(accumulate_general st _ acc_init no_nan_init).
  cbn [acc_n acc_x acc_y acc_z].
  rewrite (count_by_length _ _ _ H).
  destruct (_ >? 4000); split; reflexivity.
Qed.

Lemma detection_ignores_point_order_witness :
  Permutation [point3 5 (-30) 50; point3 5 30 50] [point3 5 30 50; point3 5 (-30) 50] /\
  c_found (centroid st_on [point3 5 (-30) 50; point3 5 30 50]) =
    c_found (centroid st_on [point3 5 30 50; point3 5 (-30) 50]) /\
  c_count (centroid st_on [point3 5 (-30) 50; point3 5 30 50]) =
    c_count (centroid st_on [point3 5 30 50; point3 5 (-30) 50]).
Proof.
  assert (H : Permutation [point3 5 (-30) 50; point3 5 30 50]
                [point3 5 30 50; point3 5 (-30) 50]) by apply perm_swap.
  exact (conj H (detection_ignores_point_order st_on _ _ H)).
Defined.

(** X9.  When a centroid is found its [z_min] is below [max_z_]. *)
Theorem found_z_min_below_max_z st pts :
  c_found (centroid st pts) = true ->
  FP.ltb (c_z_min (centroid st pts)) (max_z_ st) = true.
Proof.
  unfold centroid, accumulate.
  rewrite (accumulate_general st _ acc_init no_nan_init).
  cbn [acc_n acc_x acc_y acc_z acc_init].
  destruct (passing st pts) as [|p ps] eqn:E.
  - simpl. discriminate.
  - intros _.
    assert (Hz : forall q, In q (p :: ps) -> FP.ltb (pt_z q) (max_z_ st) = true).
    { intros q Hq. rewrite <- E in Hq. apply in_box_inv, (passing_in st pts), Hq. }
    assert (Hr : FP.ltb (fold_left FP.min (map pt_z (p :: ps)) (FP.of_Z32 1000000))
                   (max_z_ st) = true).
    { destruct (fold_min_minimum (map pt_z (p :: ps)) (FP.of_Z32 1000000) eq_refl)
        as [Hin Hlow].
      { intros v Hv. apply in_map_iff in Hv. destruct Hv as (q & <- & Hq).
        eapply ltb_not_nan_l, Hz, Hq. }
      set (r := fold_left FP.min (map pt_z (p :: ps)) (FP.of_Z32 1000000)) in *.
      assert (Hnan : FP.isnan r = false).
      { destruct Hin as [<-|Hin]; [reflexivity|].
        apply in_map_iff in Hin. destruct Hin as (q & <- & Hq).
        eapply ltb_not_nan_l, Hz, Hq. }
      destruct (ltb_cotrans (pt_z p) r (max_z_ st) Hnan (Hz p (or_introl eq_refl)))
        as [C|C]; [|exact C].
      rewrite (Hlow (pt_z p)) in C; [discriminate|].
      right. left. reflexivity. }
    destruct (_ >? 4000); exact Hr.
Qed.

Lemma found_z_min_below_max_z_witness :
  c_found (centroid st_on (points frame_approach)) = true /\
  FP.ltb (c_z_min (centroid st_on (points frame_approach))) (max_z_ st_on) = true.
Proof.
  assert (H : c_found (centroid st_on (points frame_approach)) = true)
    by (vm_compute; reflexivity).
  exact (conj H (found_z_min_below_max_z st_on (points frame_approach) H)).
Defined.

(** ** Frames *)

(** X1.  A frame writes no field but [change_direction_], and that one it
    only clears: whatever the fuel, a call of [cloudcb] that returns leaves
    the fields as they were, or has cleared an active request while a side
    was pressed. *)
Theorem cloudcb_only_clears_request fuel st fr st' out :
  cloudcb fuel st fr = Some (st', out) ->
  st' = st \/
  (any_pressed st = true /\ change_direction_ st = true /\
   st' = set_change_direction st false).
Proof.
  intros H. destruct (any_pressed st) eqn:Hp.
  - destruct (cloudcb_pressed fuel st fr Hp) as [E|(ang & limit & _ & _ & E)];
      rewrite E in H.
    + injection H as <- _. left; reflexivity.
    + apply recovery_loop_result in H. destruct H as ([->|[Hcd ->]] & _); auto.
  - rewrite (cloudcb_free fuel st fr Hp) in H.
    destruct (regime st fr); [| |destruct (enabled_ st)];
      injection H as <- _; left; reflexivity.
Qed.

Lemma cloudcb_only_clears_request_witness :
  cloudcb 30 (after st_on [press LEFT]) frame_empty =
    Some (set_change_direction (after st_on [press LEFT]) false,
          repeat (recovery_cmd (table_angular_z LEFT)) 16) /\
  (set_change_direction (after st_on [press LEFT]) false = after st_on [press LEFT] \/
   (any_pressed (after st_on [press LEFT]) = true /\
    change_direction_ (after st_on [press LEFT]) = true /\
    set_change_direction (after st_on [press LEFT]) false =
      set_change_direction (after st_on [press LEFT]) false)).
Proof.
  assert (H : cloudcb 30 (after st_on [press LEFT]) frame_empty =
              Some (set_change_direction (after st_on [press LEFT]) false,
                    repeat (recovery_cmd (table_angular_z LEFT)) 16))
    by (vm_compute; reflexivity).
  exact (conj H (cloudcb_only_clears_request 30 _ frame_empty _ _ H)).
Defined.

(** X2.  [cloudcb] returns: 21 iterations are enough for every loop, in
    every state and on every frame.  The call publishes 0, 1, 16 or 21
    commands, at most one when no side is pressed, and when it publishes
    with a side pressed no request is left. *)
Theorem cloudcb_terminates fuel st fr :
  (21 <= fuel)%nat ->
  exists st' out,
    cloudcb fuel st fr = Some (st', out) /\
    (length out = 0 \/ length out = 1 \/ length out = 16 \/ length out = 21)%nat /\
    (any_pressed st = false -> (length out <= 1)%nat) /\
    (any_pressed st = true -> out <> [] -> change_direction_ st' = false).
Proof.
  intros Hfuel. destruct (any_pressed st) eqn:Hp.
  - destruct (cloudcb_pressed fuel st fr Hp) as [E|(ang & limit & _ & Hl & E)];
      rewrite E.
    + exists st, []. repeat split; auto; congruence.
    + destruct (change_direction_ st) eqn:Hcd.
      * destruct Hl as [-> | ->].
        -- rewrite (recovery_loop_runs ang 15 st 15 fuel _ 0 [] Hcd eq_refl)
             by lia.
           eexists; eexists. split; [reflexivity|]. cbn [app].
           rewrite repeat_length. repeat split; auto; discriminate.
        -- rewrite (recovery_loop_runs ang 20 st 20 fuel _ 0 [] Hcd eq_refl)
             by lia.
           eexists; eexists. split; [reflexivity|]. cbn [app].
           rewrite repeat_length. repeat split; auto; discriminate.
      * rewrite recovery_loop_idle by exact Hcd.
        exists st, []. repeat split; auto; congruence.
  - rewrite (cloudcb_free fuel st fr Hp).
    destruct (regime st fr); [| |destruct (enabled_ st)];
      eexists; eexists; (split; [reflexivity|]); simpl;
      repeat split; auto; discriminate.
Qed.

Lemma cloudcb_terminates_witness :
  (21 <= 21)%nat /\
  exists st' out,
    cloudcb 21 (after st_on [press CENTER]) frame_empty = Some (st', out) /\
    (length out = 0 \/ length out = 1 \/ length out = 16 \/ length out = 21)%nat /\
    (any_pressed (after st_on [press CENTER]) = false -> (length out <= 1)%nat) /\
    (any_pressed (after st_on [press CENTER]) = true -> out <> [] ->
     change_direction_ st' = false).
Proof.
  assert (H : (21 <= 21)%nat) by lia.
  exact (conj H (cloudcb_terminates 21 (after st_on [press CENTER]) frame_empty H)).
Defined.

Lemma recovery_cmd_ok ang :
  In ang [FP.neg (FP.dec 4 1); FP.neg (FP.dec 5 1); FP.dec 4 1] ->
  velocity_ok (recovery_cmd ang).
Proof.
  intros [<-|[<-|[<-|[]]]]; velocity_ok_now.
Qed.

(** X3.  Every command [cloudcb] publishes, in every state, on every frame
    and for every value of [rand()], has [linear_x] equal to [-0.2], [0] or
    [0.2] and [angular_z] between [-0.7] and [0.7]. *)
Theorem published_velocities_bounded fuel st fr st' out :
  cloudcb fuel st fr = Some (st', out) -> Forall velocity_ok out.
Proof.
  intros H. destruct (any_pressed st) eqn:Hp.
  - destruct (cloudcb_pressed fuel st fr Hp) as [E|(ang & limit & Hang & _ & E)];
      rewrite E in H.
    + injection H as _ <-. constructor.
    + apply recovery_loop_result in H. destruct H as (_ & _ & k & ->).
      cbn [app]. apply Forall_forall. intros cmd Hin.
      apply repeat_spec in Hin. subst cmd. apply recovery_cmd_ok, Hang.
  - rewrite (cloudcb_free fuel st fr Hp) in H.
    destruct (regime st fr); [| |destruct (enabled_ st)];
      injection H as _ <-; try (constructor; [|constructor]).
    + apply approach_turn_ok.
    + apply hold_turn_ok.
    + velocity_ok_now.
    + constructor.
Qed.

Lemma published_velocities_bounded_witness :
  cloudcb 30 (after st_on [press CENTER]) frame_empty =
    Some (set_change_direction (after st_on [press CENTER]) false,
          repeat (recovery_cmd (table_angular_z CENTER)) 21) /\
  Forall velocity_ok (repeat (recovery_cmd (table_angular_z CENTER)) 21).
Proof.
  assert (H : cloudcb 30 (after st_on [press CENTER]) frame_empty =
              Some (set_change_direction (after st_on [press CENTER]) false,
                    repeat (recovery_cmd (table_angular_z CENTER)) 21))
    by (vm_compute; reflexivity).
  exact (conj H (published_velocities_bounded 30 _ frame_empty _ _ H)).
Defined.

(** X4.  With a centroid and no side pressed, [cloudcb] publishes exactly
    one command and keeps the fields; when the centroid's [x] is beyond
    [0.2] the command turns with [angular_z] in [[0.3, 0.7]], and when it
    is below [-0.2] with [angular_z] in [[-0.7, -0.2]], whatever [rand()]
    returns. *)
Theorem decisive_turn_toward_target fuel st fr :
  any_pressed st = false ->
  regime st fr <> NoCentroid ->
  exists cmd,
    cloudcb fuel st fr = Some (st, [cmd]) /\
    (FP.gtb (c_x (centroid st (points fr))) (FP.dec 2 1) = true ->
       FP.leb (FP.dec 3 1) (angular_z cmd) = true /\
       FP.leb (angular_z cmd) (FP.dec 7 1) = true) /\
    (FP.ltb (c_x (centroid st (points fr))) (FP.neg (FP.dec 2 1)) = true ->
       FP.leb (FP.neg (FP.dec 7 1)) (angular_z cmd) = true /\
       FP.leb (angular_z cmd) (FP.neg (FP.dec 2 1)) = true).
Proof.
  intros Hp Hreg. rewrite (cloudcb_free fuel st fr Hp).
  destruct (regime st fr); [| |congruence].
  - eexists. split; [reflexivity|]. split.
    + apply approach_turn_right.
    + intros Hx. apply approach_turn_left; [apply left_not_right|]; exact Hx.
  - eexists. split; [reflexivity|]. split.
    + apply hold_turn_right.
    + intros Hx. apply hold_turn_left; [apply left_not_right|]; exact Hx.
Qed.

Lemma decisive_turn_toward_target_witness :
  any_pressed (reconfigure st_on wide_box) = false /\
  regime (reconfigure st_on wide_box) frame_right <> NoCentroid /\
  exists cmd,
    cloudcb 0 (reconfigure st_on wide_box) frame_right =
      Some (reconfigure st_on wide_box, [cmd]) /\
    (FP.gtb (c_x (centroid (reconfigure st_on wide_box) (points frame_right)))
       (FP.dec 2 1) = true ->
       FP.leb (FP.dec 3 1) (angular_z cmd) = true /\
       FP.leb (angular_z cmd) (FP.dec 7 1) = true) /\
    (FP.ltb (c_x (centroid (reconfigure st_on wide_box) (points frame_right)))
       (FP.neg (FP.dec 2 1)) = true ->
       FP.leb (FP.neg (FP.dec 7 1)) (angular_z cmd) = true /\
       FP.leb (angular_z cmd) (FP.neg (FP.dec 2 1)) = true).
Proof.
  assert (H1 : any_pressed (reconfigure st_on wide_box) = false) by reflexivity.
  assert (H2 : regime (reconfigure st_on wide_box) frame_right <> NoCentroid)
    by (vm_compute; discriminate).
  exact (conj H1 (conj H2
    (decisive_turn_toward_target 0 (reconfigure st_on wide_box) frame_right H1 H2))).
Defined.

(** X5.  A frame of at most 4000 points never yields a centroid, whatever
    the box; enabled and with no side pressed, the nodelet then publishes
    the single command [linear_x = 0.2], [angular_z = 0] and keeps its
    fields. *)
Theorem sparse_frame_wanders fuel st fr :
  (length (points fr) <= 4000)%nat ->
  regime st fr = NoCentroid /\
  (enabled_ st = true -> any_pressed st = false ->
     cloudcb fuel st fr =
       Some (st, [{| linear_x := FP.dec 2 1; angular_z := FP.zero |}])).
Proof.
  intros Hlen.
  assert (R : regime st fr = NoCentroid).
  { unfold regime, centroid, accumulate.
    rewrite (accumulate_from st (points fr) acc_init no_nan_init)
      by (simpl; lia).
    cbn [acc_n acc_init]. pose proof (passing_length st (points fr)).
    rewrite Z.gtb_ltb.
    replace (4000 <? _) with false by (symmetry; apply Z.ltb_ge; lia).
    reflexivity. }
  split; [exact R|]. intros Hen Hp.
  rewrite (cloudcb_free fuel st fr Hp), R, Hen. reflexivity.
Qed.

Lemma sparse_frame_wanders_witness :
  (length (points frame_sparse) <= 4000)%nat /\
  regime st_on frame_sparse = NoCentroid /\
  cloudcb 0 st_on frame_sparse =
    Some (st_on, [{| linear_x := FP.dec 2 1; angular_z := FP.zero |}]).
Proof.
  assert (H : (length (points frame_sparse) <= 4000)%nat)
    by (apply Nat.leb_le; vm_compute; reflexivity).
  exact (conj H (conj
    (proj1 (sparse_frame_wanders 0 st_on frame_sparse H))
    (proj2 (sparse_frame_wanders 0 st_on frame_sparse H) eq_refl eq_refl))).
Defined.

(** ** Bumper events in sequence *)

Lemma Bumper_eqb_eq a b : Bumper_eqb a b = true <-> a = b.
Proof. destruct a, b; simpl; split; congruence. Qed.

(** One event: the flag of its side takes the reported state, the other
    flags stay. *)
Lemma bumperEventCB_pressed st e side :
  pressed (fst (bumperEventCB st e)) side =
    if Bumper_eqb (bumper e) side then
      match state e with PRESSED => true | RELEASED => false end
    else pressed st side.
Proof.
  destruct e as [b [|]], b, side; unfold bumperEventCB; cbn [bumper state];
    try reflexivity;
    match goal with
    | |- context [negb ?f] => destruct f eqn:E; cbn; try rewrite E; reflexivity
    end.
Qed.

(** One event: it writes no field of the box and not the enabled flag, and
    the request is active afterwards iff it was or the event raised it. *)
Lemma bumperEventCB_fields st e :
  box_of (fst (bumperEventCB st e)) = box_of st /\
  enabled_ (fst (bumperEventCB st e)) = enabled_ st /\
  change_direction_ (fst (bumperEventCB st e)) =
    change_direction_ st || (0 <? length (snd (bumperEventCB st e)))%nat.
Proof.
  destruct e as [b [|]], b; unfold bumperEventCB; cbn [bumper state];
    try (repeat split; cbn; try rewrite orb_false_r; reflexivity);
    match goal with
    | |- context [negb ?f] =>
        destruct f; cbn; repeat split;
        try rewrite orb_false_r; try rewrite orb_true_r; reflexivity
    end.
Qed.

(** X10.  After any sequence of bumper events the pressed flag of a side
    is what the last event about that side reported, and the flag it had
    before when no event was about it. *)
Theorem bumper_flags_follow_last_event st evs side :
  pressed (after st evs) side =
    match last_state side evs with
    | Some PRESSED => true
    | Some RELEASED => false
    | None => pressed st side
    end.
Proof.
  unfold after. revert st. induction evs as [|e evs IH]; intros st.
  - reflexivity.
  - cbn [fold_left last_state]. rewrite IH.
    destruct (last_state side evs) as [s|]; [reflexivity|].
    rewrite bumperEventCB_pressed.
    destruct (Bumper_eqb (bumper e) side); [destruct (state e)|]; reflexivity.
Qed.

(** X11.  No bumper event cancels a request or touches the box or the
    enabled flag: after any sequence of bumper events the request is
    active iff it was active before or one of the events raised it. *)
Theorem bumper_events_keep_request st evs :
  change_direction_ (after st evs) =
    change_direction_ st || (0 <? requests_raised st evs)%nat /\
  box_of (after st evs) = box_of st /\
  enabled_ (after st evs) = enabled_ st.
Proof.
  unfold after. revert st. induction evs as [|e evs IH]; intros st.
  - cbn. rewrite orb_false_r. auto.
  - cbn [fold_left requests_raised].
    destruct (IH (fst (bumperEventCB st e))) as (H1 & H2 & H3).
    destruct (bumperEventCB_fields st e) as (F1 & F2 & F3).
    destruct (bumperEventCB st e) as [st1 log] eqn:E. cbn [fst snd] in *.
    rewrite H1, H2, H3, F1, F2, F3. repeat split.
    rewrite <- orb_assoc. f_equal.
    destruct (length log), (requests_raised st1 evs); reflexivity.
Qed.

(** ** The mode service, repeated *)

(** X12.  Repeating a mode request changes nothing and publishes nothing;
    a mode request never writes the box, the pressed flags or the request,
    and it publishes only when it changes the enabled flag. *)
Theorem change_mode_idempotent st r :
  changeModeSrvCb (mode_fields st r) r = (mode_fields st r, [], OK, true) /\
  box_of (mode_fields st r) = box_of st /\
  flags_of (mode_fields st r) = flags_of st /\
  change_direction_ (mode_fields st r) = change_direction_ st /\
  (enabled_ (mode_fields st r) = enabled_ st -> mode_commands st r = []).
Proof.
  unfold mode_fields, mode_commands, changeModeSrvCb.
  destruct (enabled_ st) eqn:E, r; cbn; rewrite ?E; repeat split;
    try reflexivity; discriminate.
Qed.

(** X13.  From an enabled nodelet, a Stopped request followed by a Follow
    request restores the fields exactly; the two calls publish the zero
    command once. *)
Theorem stop_then_follow_restores st :
  enabled_ st = true ->
  mode_fields (mode_fields st STOPPED) FOLLOW = st /\
  mode_commands st STOPPED ++ mode_commands (mode_fields st STOPPED) FOLLOW =
    [Twist_new].
Proof.
  intros E. unfold mode_fields, mode_commands, changeModeSrvCb. rewrite E. cbn.
  split; [|reflexivity]. destruct st; cbn in *. subst. reflexivity.
Qed.

Lemma stop_then_follow_restores_witness :
  enabled_ (after st_on [press LEFT]) = true /\
  mode_fields (mode_fields (after st_on [press LEFT]) STOPPED) FOLLOW =
    after st_on [press LEFT] /\
  mode_commands (after st_on [press LEFT]) STOPPED ++
    mode_commands (mode_fields (after st_on [press LEFT]) STOPPED) FOLLOW =
    [Twist_new].
Proof.
  assert (H : enabled_ (after st_on [press LEFT]) = true) by reflexivity.
  exact (conj H (stop_then_follow_restores (after st_on [press LEFT]) H)).
Defined.

(** ** The queue *)

Lemma cloudcb_fields fuel st fr st' out :
  cloudcb fuel st fr = Some (st', out) ->
  box_of st' = box_of st /\ enabled_ st' = enabled_ st /\
  flags_of st' = flags_of st /\
  (change_direction_ st' = true -> change_direction_ st = true).
Proof.
  intros H.
  assert (D : st' = st \/ st' = set_change_direction st false).
  { destruct (any_pressed st) eqn:Hp.
    - destruct (cloudcb_pressed fuel st fr Hp) as [E|(ang & limit & _ & _ & E)];
        rewrite E in H.
      + injection H as <- _. left; reflexivity.
      + apply recovery_loop_result in H.
        destruct H as ([->|[_ ->]] & _); auto.
    - rewrite (cloudcb_free fuel st fr Hp) in H.
      destruct (regime st fr); [| |destruct (enabled_ st)];
        injection H as <- _; left; reflexivity. }
  destruct D as [-> | ->]; repeat split; auto. cbn. discriminate.
Qed.

(** X14.  Each field has its writers.  Over any queue of messages that is
    handled to its end: without a reconfigure message the box is
    unchanged; without a mode request the enabled flag is unchanged;
    without a bumper event the pressed flags are unchanged and no request
    is raised. *)
Theorem queue_field_ownership fuel st ms st' outs :
  run fuel st ms = Some (st', outs) ->
  (forallb (fun m => negb (is_reconfigure_msg m)) ms = true ->
     box_of st' = box_of st) /\
  (forallb (fun m => negb (is_mode_msg m)) ms = true ->
     enabled_ st' = enabled_ st) /\
  (forallb (fun m => negb (is_bumper_msg m)) ms = true ->
     flags_of st' = flags_of st /\
     (change_direction_ st' = true -> change_direction_ st = true)).
Proof.
  revert st st' outs. induction ms as [|m ms IH]; intros st st' outs H.
  - injection H as <- _. auto.
  - cbn [run] in H. destruct (handle fuel st m) as [[st1 out]|] eqn:Hm;
      [|discriminate].
    destruct (run fuel st1 ms) as [[st2 outs2]|] eqn:Hr; [|discriminate].
    injection H as <- _. destruct (IH _ _ _ Hr) as (I1 & I2 & I3).
    cbn [forallb]. rewrite !andb_true_iff.
    assert (F : (is_reconfigure_msg m = false -> box_of st1 = box_of st) /\
                (is_mode_msg m = false -> enabled_ st1 = enabled_ st) /\
                (is_bumper_msg m = false ->
                   flags_of st1 = flags_of st /\
                   (change_direction_ st1 = true -> change_direction_ st = true))).
    { destruct m as [e|fr|r|c]; cbn [handle] in Hm.
      - injection Hm as <- _. destruct (bumperEventCB_fields st e) as (F1 & F2 & _).
        repeat split; auto; discriminate.
      - destruct (cloudcb_fields _ _ _ _ _ Hm) as (F1 & F2 & F3 & F4).
        repeat split; auto.
      - unfold changeModeSrvCb in Hm.
        destruct (enabled_ st), r; injection Hm as <- _;
          repeat split; auto; discriminate.
      - injection Hm as <- _. repeat split; auto; discriminate. }
    destruct F as (F1 & F2 & F3). repeat split.
    + intros [Hm' Hms]. rewrite I1 by exact Hms. apply F1.
      destruct (is_reconfigure_msg m); [discriminate|reflexivity].
    + intros [Hm' Hms]. rewrite I2 by exact Hms. apply F2.
      destruct (is_mode_msg m); [discriminate|reflexivity].
    + destruct H as [Hm' Hms]. destruct (I3 Hms) as [I3a _]. rewrite I3a.
      apply F3. destruct (is_bumper_msg m); [discriminate|reflexivity].
    + intros Hcd. destruct H as [Hm' Hms]. destruct (I3 Hms) as [_ I3b].
      apply F3; [destruct (is_bumper_msg m); [discriminate|reflexivity]|].
      apply I3b, Hcd.
Qed.

Lemma queue_field_ownership_witness :
  run 30 st_on [MsgBumper (press LEFT); MsgCloud frame_empty; MsgMode STOPPED] =
    Some (set_enabled (set_change_direction (after st_on [press LEFT]) false) false,
          [[]; repeat (recovery_cmd (table_angular_z LEFT)) 16; [Twist_new]]) /\
  box_of (set_enabled (set_change_direction (after st_on [press LEFT]) false) false) =
    box_of st_on.
Proof.
  assert (H : run 30 st_on
                [MsgBumper (press LEFT); MsgCloud frame_empty; MsgMode STOPPED] =
              Some (set_enabled
                      (set_change_direction (after st_on [press LEFT]) false) false,
                    [[]; repeat (recovery_cmd (table_angular_z LEFT)) 16;
                     [Twist_new]]))
    by (vm_compute; reflexivity).
  exact (conj H (proj1 (queue_field_ownership 30 st_on _ _ _ H) eq_refl)).
Defined.

(** X15.  Frames alone change nothing unless a recovery is due: when no
    side is pressed, or no request is active, any number of frames in a row
    leaves every field as it was; each of them publishes at most one
    command, and none at all while a side is pressed. *)
Theorem frames_alone_keep_fields fuel st frs :
  any_pressed st = false \/ change_direction_ st = false ->
  exists outs,
    run fuel st (map MsgCloud frs) = Some (st, outs) /\
    length outs = length frs /\
    (any_pressed st = true -> Forall (fun out => out = []) outs) /\
    Forall (fun out => (length out <= 1)%nat) outs.
Proof.
  intros H. induction frs as [|fr frs IH].
  - exists []. repeat split; auto.
  - destruct IH as (outs & Hr & Hl & Hh & Hs).
    assert (Hc : exists out, cloudcb fuel st fr = Some (st, out) /\
                             (length out <= 1)%nat /\
                             (any_pressed st = true -> out = [])).
    { destruct (any_pressed st) eqn:Hp.
      - destruct H as [H|H]; [discriminate|].
        exists []. rewrite (cloudcb_held fuel st fr Hp H). auto.
      - rewrite (cloudcb_free fuel st fr Hp).
        destruct (regime st fr); [| |destruct (enabled_ st)];
          eexists; (split; [reflexivity|]); split; simpl; auto; discriminate. }
    destruct Hc as (out & Hc & Hlen & Hnil).
    exists (out :: outs). cbn [map run handle]. rewrite Hc, Hr.
    split; [reflexivity|]. split; [simpl; rewrite Hl; reflexivity|].
    split; [intros Hp; constructor; auto | constructor; auto].
Qed.

Lemma frames_alone_keep_fields_witness :
  any_pressed (after st_on [press LEFT; release LEFT]) = false /\
  exists outs,
    run 0 (after st_on [press LEFT; release LEFT])
      (map MsgCloud [frame_empty; frame_hold; frame_approach]) =
      Some (after st_on [press LEFT; release LEFT], outs) /\
    length outs = length [frame_empty; frame_hold; frame_approach] /\
    (any_pressed (after st_on [press LEFT; release LEFT]) = true ->
     Forall (fun out => out = []) outs) /\
    Forall (fun out => (length out <= 1)%nat) outs.
Proof.
  assert (H : any_pressed (after st_on [press LEFT; release LEFT]) = false)
    by reflexivity.
  exact (conj H (frames_alone_keep_fields 0 _
                   [frame_empty; frame_hold; frame_approach] (or_introl H))).
Defined.

(** ** The debug markers *)


